(** * pyphase.discrete: discrete relative phase and AMPD peak detection

    A shallow embedding of [src/pyphase/discrete.py].

    Conventions of the embedding.
    - A float64 sample is the rational it denotes ([Q]).  The sum
      [r + a] that fills the scalogram is rounded as binary64 rounds it
      ([f64_near_one]); the sums, means and comparisons made afterwards
      are exact.  The two non-finite outcomes the code can produce, a
      division by a zero count, are kept apart in [f64].
    - An n-dimensional array is its shape and its row-major contents.
    - Python exceptions are values of [exn]; a computation that can raise
      returns [exn + A].
    - [np.random.sample] reads the process-wide generator.  The generator
      is threaded explicitly: a computation that draws is a function from
      the generator's state to an outcome and the next state.
    - The collaborators that are not part of the package,
      [scipy.signal.detrend] and [sklearn]'s [PCA.fit_transform], are
      section variables; the projection can raise, as the estimator does
      on an array it refuses, and what is assumed of it is stated where
      it is used ([pca_contract]). *)

From Stdlib Require Import String.
From Stdlib Require Import List ZArith QArith Qround Lia Lqa Bool Arith Sorted.
Import ListNotations.

Set Implicit Arguments.
Open Scope Q_scope.

(** ** Exceptions and the two effects *)

Inductive exn : Type :=
| ValueError (msg : string)
| IndexError (msg : string).

Definition is_ValueError {A : Type} (r : exn + A) : bool :=
  match r with
  | inl (ValueError _) => true
  | _ => false
  end.

(** The state of numpy's global generator: the sequence of uniform
    samples it will hand out, and how many it has handed out so far. *)
Record rng : Type := mk_rng { draws : nat -> Q; cursor : nat }.

(** [np.random.sample] returns values of the half-open interval [0, 1). *)
Definition uniform01 (g : rng) : Prop :=
  forall i : nat, 0 <= draws g i /\ draws g i < 1.

Definition advance (g : rng) (n : nat) : rng :=
  mk_rng (draws g) (cursor g + n).

Definition M (A : Type) : Type := rng -> (exn + A) * rng.

Definition ret {A : Type} (x : A) : M A := fun g => (inr x, g).

Definition bind {A B : Type} (c : M A) (k : A -> M B) : M B :=
  fun g =>
    match c g with
    | (inl e, g') => (inl e, g')
    | (inr x, g') => k x g'
    end.

Definition lift {A : Type} (r : exn + A) : M A := fun g => (r, g).

Declare Scope py_scope.
Delimit Scope py_scope with py.
Notation "x <- c ;; k" := (bind c (fun x => k))
  (at level 61, c at next level, right associativity) : py_scope.

(** Bind of the pure error monad, for the code that does not draw. *)
Definition ebind {A B : Type} (r : exn + A) (k : A -> exn + B) : exn + B :=
  match r with
  | inl e => inl e
  | inr x => k x
  end.

(** ** Numbers *)

(** [x > y] on floats. *)
Definition Qgtb (x y : Q) : bool := negb (Qle_bool x y).

(** Rounding to the nearest integer, a half going to the even neighbour. *)
Definition round_half_even (q : Q) : Z :=
  let f := Qfloor q in
  match Qcompare (q - inject_Z f) (1 # 2) with
  | Lt => f
  | Gt => (f + 1)%Z
  | Eq => if Z.even f then f else (f + 1)%Z
  end.

(** The binary64 value of a real of [1, 2]: the values are there the
    multiples of 2^-52, and the real is rounded to the nearest of them. *)
Definition f64_near_one (q : Q) : Q :=
  inject_Z (round_half_even (q * inject_Z (2 ^ 52))) / inject_Z (2 ^ 52).

(** The outcome of a float division whose divisor may be zero. *)
Inductive f64 : Type :=
| Fin (q : Q)
| PInf
| NInf
| NaN.

(** [x / n] for a float [x] and a count [n]. *)
Definition true_divide (x : Q) (n : Z) : f64 :=
  if (n =? 0)%Z then
    if Qeq_bool x 0 then NaN
    else if Qle_bool 0 x then PInf else NInf
  else Fin (x / inject_Z n).

(** [np.sqrt] of a variance.  The caller only ever tests the root against
    zero, so the root is kept as its radicand: for [v >= 0], the root of
    [v] is zero exactly when [v] is. *)
Inductive root : Type := Sqrt (v : f64).

(** [s == 0] on the result of a square root; false on NaN and on inf. *)
Definition root_eqb_zero (s : root) : bool :=
  match s with
  | Sqrt (Fin q) => Qeq_bool q 0
  | Sqrt _ => false
  end.

(** [np.pi], the float64 closest to pi: 0x400921FB54442D18. *)
Definition np_pi : Q := 884279719003555 # 281474976710656.

(** ** Arrays *)

Record ndarray : Type := mk_ndarray { shape : list nat; flat : list Q }.

Definition ndim (a : ndarray) : nat := length (shape a).

(** A one-dimensional array. *)
Definition vec (xs : list Q) : ndarray := mk_ndarray [length xs] xs.

(** An (n, 2) array whose columns are [xs] and [ys]. *)
Definition column_stack (xs ys : list Q) : ndarray :=
  mk_ndarray [length xs; 2%nat]
             (flat_map (fun p => [fst p; snd p]) (combine xs ys)).

(** [np.squeeze]: drop the axes of length one. *)
Definition squeeze (a : ndarray) : ndarray :=
  mk_ndarray (filter (fun d => negb (d =? 1)%nat) (shape a)) (flat a).

(** [a.shape[i]]. *)
Definition shape_at (a : ndarray) (i : nat) : exn + nat :=
  match nth_error (shape a) i with
  | Some d => inr d
  | None => inl (IndexError "tuple index out of range")
  end.

(** [a[:, j]] on a two-dimensional array. *)
Definition column (a : ndarray) (j : nat) : ndarray :=
  match shape a with
  | [n; m] =>
      mk_ndarray [n] (map (fun i => nth (i * m + j) (flat a) 0)
                          (seq 0 n))
  | _ => a
  end.

(** ** numpy primitives on vectors and matrices *)

Definition matrix : Type := list (list Q).

Definition mat_init {A : Type} (L N : nat) (f : nat -> nat -> A)
  : list (list A) :=
  map (fun r => map (fun c => f r c) (seq 0 N)) (seq 0 L).

Fixpoint zip_with {A B C : Type} (f : A -> B -> C)
         (xs : list A) (ys : list B) : list C :=
  match xs, ys with
  | x :: xs', y :: ys' => f x y :: zip_with f xs' ys'
  | _, _ => []
  end.

(** An elementwise binary operation on two arrays of one shape. *)
Definition mat_zip {A B C : Type} (f : A -> B -> C)
           (m1 : list (list A)) (m2 : list (list B)) : list (list C) :=
  zip_with (zip_with f) m1 m2.

(** [m[r, :] = row]. *)
Fixpoint set_row {A : Type} (r : nat) (row : list A) (m : list (list A))
  : list (list A) :=
  match m, r with
  | [], _ => []
  | _ :: m', O => row :: m'
  | x :: m', S r' => x :: set_row r' row m'
  end.

(** [m[r, c]]; the default is never read inside the shape. *)
Definition entry (m : matrix) (r c : nat) : Q := nth c (nth r m []) 0.

(** [np.roll(l, s)] on a vector: the element at [i] moves to [i + s],
    wrapping around. *)
Definition roll (l : list Q) (s : Z) : list Q :=
  let n := length l in
  match n with
  | O => l
  | _ =>
      let offset := Z.to_nat (s mod Z.of_nat n) in
      skipn (n - offset) l ++ firstn (n - offset) l
  end.

Definition Qsum (l : list Q) : Q := fold_right Qplus 0 l.

(** [m.sum(axis=1)]. *)
Definition sum_axis1 (m : matrix) : list Q := map Qsum m.

(** [v.argmin()]: the first index of the least element. *)
Fixpoint argmin_from (best_ix : nat) (best : Q) (ix : nat) (l : list Q)
  : nat :=
  match l with
  | [] => best_ix
  | x :: l' =>
      if Qgtb best x
      then argmin_from ix x (S ix) l'
      else argmin_from best_ix best (S ix) l'
  end.

Definition argmin (l : list Q) : exn + nat :=
  match l with
  | [] => inl (ValueError "attempt to get argmin of an empty sequence")
  | x :: l' => inr (argmin_from 0 x 1 l')
  end.

(** [np.var(xs, ddof)]: mean, squared deviations, their sum over
    [max(n - ddof, 0)]. *)
Definition var (xs : list Q) (ddof : Z) : f64 :=
  let n := Z.of_nat (length xs) in
  match true_divide (Qsum xs) n with
  | Fin arrmean =>
      let x := map (fun v => v - arrmean) xs in
      let x := map (fun v => v * v) x in
      true_divide (Qsum x) (Z.max (n - ddof) 0)
  | _ => NaN
  end.

Definition std (xs : list Q) (ddof : Z) : root := Sqrt (var xs ddof).

(** Number of columns of a matrix with at least one row. *)
Definition ncols (m : matrix) : nat :=
  match m with
  | [] => 0
  | row :: _ => length row
  end.

Definition mat_column (m : matrix) (c : nat) : list Q :=
  map (fun row => nth c row 0) m.

(** [m.std(axis=0, ddof)]. *)
Definition std_axis0 (m : matrix) (ddof : Z) : list root :=
  map (fun c => std (mat_column m c) ddof) (seq 0 (ncols m)).

(** [np.nonzero(mask)[0]] on a vector of booleans. *)
Definition nonzero (mask : list bool) : list nat :=
  filter (fun i => nth i mask false) (seq 0 (length mask)).

(** [np.diff] on a vector of indices. *)
Fixpoint diff (l : list nat) : list Z :=
  match l with
  | x :: (y :: _) as l' => (Z.of_nat y - Z.of_nat x)%Z :: diff l'
  | _ => []
  end.

(** [t[ix]] with an integer index array. *)
Fixpoint take (t : list Q) (ix : list nat) : exn + list Q :=
  match ix with
  | [] => inr []
  | i :: ix' =>
      match nth_error t i with
      | None => inl (IndexError "index out of bounds")
      | Some x => ebind (take t ix') (fun xs => inr (x :: xs))
      end
  end.

(** [np.arange(n)]. *)
Definition arange (n : nat) : list Q :=
  map (fun i => inject_Z (Z.of_nat i)) (seq 0 n).

(** [np.random.sample((L, N))]: a negative dimension is refused, else
    [L * N] draws are taken, row by row. *)
Definition random_sample (L : Z) (N : nat) : M matrix :=
  fun g =>
    if (L <? 0)%Z
    then (inl (ValueError "negative dimensions are not allowed"), g)
    else
      let rows := Z.to_nat L in
      (inr (mat_init rows N (fun r c => draws g (cursor g + r * N + c)%nat)),
       advance g (rows * N)).

(** [int(np.ceil(N / 2) - 1)], with Python 3's true division. *)
Definition scales (N : nat) : Z := ((Z.of_nat N + 1) / 2 - 1)%Z.

(** ** The module [pyphase.discrete] *)

Section Discrete.

Open Scope py_scope.

(** [scipy.signal.detrend] on a vector (removal of the best linear fit). *)
Variable detrend : list Q -> list Q.

(** [PCA(n_components=1).fit_transform].  The estimator checks its input
    and raises where it refuses it, so the projection yields an array or
    an exception. *)
Variable fit_transform : ndarray -> exn + ndarray.

Definition _validate_vector (data : ndarray) : exn + ndarray :=
  let data := squeeze data in
  if (1 <? length (shape data))%nat
  then inl (ValueError "input cannot be cast to 1D vector")
  else inr data.

Definition _collapse (data : ndarray) : exn + ndarray :=
  ebind (fit_transform data) (fun reduced => inr (squeeze reduced)).

Definition _validate_vectors (a : ndarray) (b : option ndarray)
  : exn + (ndarray * ndarray) :=
  ebind
    match b with
    | None =>
        let a := squeeze a in
        if negb (ndim a =? 2)%nat || negb (nth 1 (shape a) 0 =? 2)%nat
        then inl (ValueError
               "with one input, array must have be 2D with two columns")
        else inr (column a 0, column a 1)
    | Some b => inr (a, b)
    end
    (fun ab =>
       let a := squeeze (fst ab) in
       ebind (if (1 <? ndim a)%nat then _collapse a else inr a)
         (fun a =>
            let b := squeeze (snd ab) in
            ebind (if (1 <? ndim b)%nat then _collapse b else inr b)
              (fun b => inr (a, b)))).

(** The two shifted copies of the data, filled row by row by the loop
    over [shift_ix]. *)
Definition shifted_matrices (L N : nat) (data : list Q)
  : matrix * matrix :=
  let empty := mat_init L N (fun _ _ => 0) in
  fold_left
    (fun acc shift_ix =>
       let shift := (Z.of_nat shift_ix + 1)%Z in
       (set_row shift_ix (roll data (- shift)) (fst acc),
        set_row shift_ix (roll data shift) (snd acc)))
    (seq 0 L) (empty, empty).

Definition _local_maxima_scalogram (data : ndarray) : M matrix :=
  let a := 1 in
  v <- lift (_validate_vector data) ;;
  let data := mk_ndarray (shape v) (detrend (flat v)) in
  N <- lift (shape_at data 0) ;;
  let L := scales N in
  r <- random_sample L N ;;
  let lms := map (map (fun x => f64_near_one (x + a))) r in
  let L := Z.to_nat L in
  let (shifted_back, shifted_forward) := shifted_matrices L N (flat data) in
  let shift := mat_init L N (fun r _ => Z.of_nat r) in
  let data_ix := mat_init L N (fun _ c => Z.of_nat c) in
  let shift := map (map (fun s => (s + 1)%Z)) shift in
  let elements_to_check :=
    mat_zip andb
      (mat_zip (fun s i => (s + 1 <=? i)%Z) shift data_ix)
      (mat_zip (fun i s => (i <=? Z.of_nat N - s)%Z) data_ix shift) in
  let data := repeat (flat data) L in
  let mask :=
    mat_zip andb
      (mat_zip andb elements_to_check (mat_zip Qgtb data shifted_back))
      (mat_zip Qgtb data shifted_forward) in
  ret (mat_zip (fun (m : bool) x => if m then 0 else x) mask lms).

Definition ampd_peaks (data : ndarray) : M (list nat) :=
  lms <- _local_maxima_scalogram data ;;
  let gamma := sum_axis1 lms in
  global_min <- lift (argmin gamma) ;;
  let stds := std_axis0 (firstn (global_min + 1) lms) 1 in
  ret (nonzero (map root_eqb_zero stds)).

(** One entry of [2 * np.pi * (peaks[0] - peaks[1]) / periods]. *)
Definition phase_of (pa pb : nat) (period : Z) : Q :=
  2 * np_pi * inject_Z (Z.of_nat pa - Z.of_nat pb) / inject_Z period.

Definition relative_phase (a : ndarray) (b : option ndarray)
           (t : option (list Q)) : M (list Q * list Q * list Q) :=
  ab <- lift (_validate_vectors a b) ;;
  let a := fst ab in
  let b := snd ab in
  t <- match t with
       | None => n <- lift (shape_at a 0) ;; ret (arange n)
       | Some t => ret t
       end ;;
  peaks0 <- ampd_peaks a ;;
  peaks1 <- ampd_peaks b ;;
  let periods := diff peaks0 in
  let len :=
    Nat.min (Nat.min (length peaks0) (length peaks1)) (length periods) in
  let peaks0 := firstn len peaks0 in
  let peaks1 := firstn len peaks1 in
  let periods := firstn len periods in
  let rel_phase :=
    zip_with (fun pq period => phase_of (fst pq) (snd pq) period)
             (combine peaks0 peaks1) periods in
  t_a <- lift (take t peaks0) ;;
  t_b <- lift (take t peaks1) ;;
  ret (t_a, t_b, rel_phase).

End Discrete.

(** Exact least-squares line removal, used where a concrete
    [scipy.signal.detrend] is needed. *)
Definition lstsq_detrend (xs : list Q) : list Q :=
  let n := inject_Z (Z.of_nat (length xs)) in
  let ix := arange (length xs) in
  let sx := Qsum ix in
  let sy := Qsum xs in
  let sxx := Qsum (map (fun i => i * i) ix) in
  let sxy := Qsum (zip_with Qmult ix xs) in
  let slope := (n * sxy - sx * sy) / (n * sxx - sx * sx) in
  let intercept := (sy - slope * sx) / n in
  zip_with (fun i x => Qred (x - (intercept + slope * i))) ix xs.

(** A stand-in for the projection: the first channel of an (n, m) array,
    as an (n, 1) array.  As the estimator of scikit-learn does, it refuses
    an array that is not two-dimensional with a [ValueError]. *)
Definition first_channel (a : ndarray) : exn + ndarray :=
  match shape a with
  | [n; m] => inr (mk_ndarray [n; 1%nat] (flat (column a 0)))
  | _ => inl (ValueError "the estimator expects a two-dimensional array")
  end.

(** A generator with scattered values of [0, 1): the first 320 terms of a
    quadratic congruential sequence, then zeros. *)
Definition lcg_value (seed z : Z) : Q :=
  (((seed + 1) * (z * 7919 + z * z * 104729 + 12345)) mod 1000003)%Z
  # 1000003.

Definition lcg (seed : Z) : rng :=
  let table := map (fun i => lcg_value seed (Z.of_nat i)) (seq 0 320) in
  mk_rng (fun i => nth i table 0) 0.

(** ** What the scalogram holds *)

(** The test the code applies at row [r] (scale [r + 1]) and column [c] of
    a detrended signal [d] of [N] samples.  The forward neighbour is read
    from the copy rolled back by the scale, so its index wraps around at
    [N]; the backward neighbour never wraps inside the checked range. *)
Definition zeroed (d : list Q) (N r c : nat) : bool :=
  (r + 2 <=? c)%nat && (c + (r + 1) <=? N)%nat
  && Qgtb (nth c d 0) (nth ((c + (r + 1)) mod N) d 0)
  && Qgtb (nth c d 0) (nth (c - (r + 1)) d 0).

(** The value [r + a] stored for row [r] and column [c]: the sum of the
    sample drawn, of [0, 1), and of one, rounded as binary64 rounds it. *)
Definition baseline (g : rng) (N r c : nat) : Q :=
  f64_near_one (draws g (cursor g + r * N + c)%nat + 1).

Definition lms_entry (d : list Q) (g : rng) (N r c : nat) : Q :=
  if zeroed d N r c then 0 else baseline g N r c.

(** Number of rows of the scalogram of a signal of [N >= 1] samples. *)
Definition rows_of (N : nat) : nat := Z.to_nat (scales N).

(** ** What the peak detector returns *)

(** Row [k] of the vector [gamma] is a global minimum. *)
Definition is_global_min (gamma : list Q) (k : nat) : Prop :=
  (k < length gamma)%nat /\
  forall j, (j < length gamma)%nat -> nth k gamma 0 <= nth j gamma 0.

(** The columns of [lms], [N] wide, whose sample standard deviation over
    the rows [0 .. global_min] is exactly zero. *)
Definition peaks_of (lms : matrix) (N global_min : nat) : list nat :=
  filter
    (fun i => root_eqb_zero (std (mat_column (firstn (global_min + 1) lms) i) 1))
    (seq 0 N).




(** ** What the phase estimator returns *)

(** The length the three vectors are cropped to. *)
Definition crop_length (peaks0 peaks1 : list nat) : nat :=
  Nat.min (Nat.min (length peaks0) (length peaks1)) (length (diff peaks0)).

(** The phases of the first [len] cycles. *)
Definition phases (peaks0 peaks1 : list nat) (len : nat) : list Q :=
  zip_with (fun pq period => phase_of (fst pq) (snd pq) period)
           (combine (firstn len peaks0) (firstn len peaks1))
           (firstn len (diff peaks0)).

(** The time base in use: the one passed, or the sample indices of the
    first signal. *)
Definition time_base (t : option (list Q)) (a : ndarray) (tl : list Q)
  : Prop :=
  match t with
  | Some t' => tl = t'
  | None => exists n, shape_at a 0 = inr n /\ tl = arange n
  end.

(** Two reduced signals of one length [N], with at least one scale, and a
    time base of that length when one is passed. *)
Definition valid_signals (a b : ndarray) (t : option (list Q)) (N : nat)
  : Prop :=
  shape a = [N] /\ shape b = [N] /\
  length (flat a) = N /\ length (flat b) = N /\
  (3 <= N)%nat /\
  forall t', t = Some t' -> length t' = N.

(** ** Sample inputs *)

(** Two periodic signals of thirteen samples, a quarter period apart. *)
Definition sig_a : list Q := [0; -1; 0; 3; 0; -1; 0; 3; 0; -1; 0; 3; 0].
Definition sig_b : list Q := [0; 3; 0; -1; 0; 3; 0; -1; 0; 3; 0; -1; 0].

(** Five detrended samples whose two scales find the same single peak. *)
Definition sig_tie : list Q := [-1; 0; 1; 2; -2].

(** A signal with a single scale. *)
Definition sig_short : list Q := [1; 4; 2].

(** ** Claims that do not hold as they are worded *)

(** The three returned vectors have one length, the least of the number of
    peaks of A, the number of peaks of B and the number of peaks of A
    minus one. *)
Definition C4_as_stated (detrend : list Q -> list Q)
           (fit_transform : ndarray -> exn + ndarray)
           (a : ndarray) (b : option ndarray) (t : option (list Q))
           (g : rng) : Prop :=
  forall a' b' pa pb g1 g2 t_a t_b rel,
    _validate_vectors fit_transform a b = inr (a', b') ->
    ampd_peaks detrend a' g = (inr pa, g1) ->
    ampd_peaks detrend b' g1 = (inr pb, g2) ->
    relative_phase detrend fit_transform a b t g = (inr (t_a, t_b, rel), g2) ->
    length t_a = length rel /\ length t_b = length rel /\
    Z.of_nat (length rel) =
    Z.min (Z.min (Z.of_nat (length pa)) (Z.of_nat (length pb)))
          (Z.of_nat (length pa) - 1).

(** A three-dimensional array with a leading axis of length one, holding
    the two columns 1, 4, 2 and 0, 2, 1. *)
Definition cube : ndarray := mk_ndarray [1; 3; 2]%nat [1; 0; 4; 2; 2; 1].

(** The array is two-dimensional with exactly two columns. *)
Definition two_columns (a : ndarray) : Prop :=
  ndim a = 2%nat /\ nth 1 (shape a) 0%nat = 2%nat.

(** The estimator raises a [ValueError] exactly when the second signal is
    absent and the first is not two-dimensional with two columns, or an
    array is not one-dimensional after the reduction. *)
Definition C7_as_stated (detrend : list Q -> list Q)
           (fit_transform : ndarray -> exn + ndarray)
           (a : ndarray) (b : option ndarray) (t : option (list Q))
           (g : rng) : Prop :=
  is_ValueError (fst (relative_phase detrend fit_transform a b t g)) = true
  <->
  (b = None /\ ~ two_columns a) \/
  (exists a' b', _validate_vectors fit_transform a b = inr (a', b') /\
                 (ndim a' <> 1%nat \/ ndim b' <> 1%nat)).

(** What [_validate_vectors] makes of each of its two arrays: the array
    is squeezed and, with more than one axis left, projected. *)
Definition reduced (fit_transform : ndarray -> exn + ndarray) (x : ndarray)
  : exn + ndarray :=
  let y := squeeze x in
  if (1 <? ndim y)%nat then _collapse fit_transform y else inr y.

(** What the call relies on from the estimator of scikit-learn: an array
    of three axes or more is refused with a [ValueError], and an (n, m)
    array of at least two rows and two columns is projected to an (n, 1)
    array. *)
Definition pca_contract (fit_transform : ndarray -> exn + ndarray) : Prop :=
  (forall x, (3 <= ndim x)%nat ->
             exists msg, fit_transform x = inl (ValueError msg)) /\
  (forall x n m, shape x = [n; m] -> (2 <= n)%nat -> (2 <= m)%nat ->
                 exists y, fit_transform x = inr y /\
                           shape y = [n; 1%nat] /\ length (flat y) = n).

(** A squeezed array with three axes or more, or a signal of at least
    three samples, or a table of at least three rows and two columns. *)
Definition regular (x : ndarray) : Prop :=
  (3 <= ndim x)%nat \/
  (exists n, shape x = [n] /\ length (flat x) = n /\ (3 <= n)%nat) \/
  (exists n m, shape x = [n; m] /\ (3 <= n)%nat /\ (2 <= m)%nat).

(** The arrays passed are regular: the two of them, or the two-column
    table when the second signal is absent. *)
Definition regular_input (a : ndarray) (b : option ndarray) : Prop :=
  match b with
  | None => forall n, shape (squeeze a) = [n; 2%nat] -> (3 <= n)%nat
  | Some b0 => regular (squeeze a) /\ regular (squeeze b0)
  end.

(** An array of three axes, none of length one. *)
Definition tensor : ndarray :=
  mk_ndarray [3; 2; 2]%nat [1; 0; 4; 2; 2; 1; 0; 1; 3; 1; 1; 0].

(** Two calls give the same output, and a call leaves no trace: the
    second of two successive calls returns what the first returned, and
    the generator is where it was. *)
Definition C5_as_stated (detrend : list Q -> list Q)
           (fit_transform : ndarray -> exn + ndarray)
           (a : ndarray) (b : option ndarray) (t : option (list Q)) : Prop :=
  (forall g,
      let first := relative_phase detrend fit_transform a b t g in
      let second := relative_phase detrend fit_transform a b t (snd first) in
      fst first = fst second) /\
  (forall g, snd (relative_phase detrend fit_transform a b t g) = g).

(** Two generator states that hand out the same next [k] values. *)
Definition agree_upto (k : nat) (g g' : rng) : Prop :=
  forall i, (i < k)%nat ->
            draws g (cursor g + i)%nat = draws g' (cursor g' + i)%nat.

(** The number of values a call draws on two signals of [N] samples: one
    for each of the [(ceil(N/2) - 1) * N] entries of either scalogram. *)
Definition draws_of_call (N : nat) : nat :=
  (2 * (((N + 1) / 2 - 1) * N))%nat.

(** The generator [lcg 12] for its first 156 values, and zeros after
    them. *)
Definition lcg_cut : rng :=
  mk_rng (fun i => if (i <? 156)%nat then draws (lcg 12) i else 0) 0.

(** The scalogram of [sig_a] drawn from [lcg 12]. *)
Definition sample_lms : matrix :=
  mat_init (rows_of 13) 13 (lms_entry (lstsq_detrend sig_a) (lcg 12) 13).

(** A time base whose values increase with the index. *)
Definition increasing (tl : list Q) : Prop :=
  forall i j, (i < j)%nat -> (j < length tl)%nat -> nth i tl 0 < nth j tl 0.

(** A time base of thirteen instants that are not evenly spaced. *)
Definition sample_times : list Q := map (fun x => x * x) (arange 13).

(** ** Lists and matrices *)

Lemma length_zip_with {A B C : Type} (f : A -> B -> C) (xs : list A) (ys : list B) :
  length (zip_with f xs ys) = Nat.min (length xs) (length ys).
Proof.
  revert ys; induction xs as [|x xs IH]; intros [|y ys]; simpl; auto.
Qed.

Lemma nth_zip_with {A B C : Type} (f : A -> B -> C) (xs : list A) (ys : list B)
      (i : nat) (dx : A) (dy : B) (d : C) :
  (i < length xs)%nat -> (i < length ys)%nat ->
  nth i (zip_with f xs ys) d = f (nth i xs dx) (nth i ys dy).
Proof.
  revert ys i; induction xs as [|x xs IH]; intros [|y ys] [|i]; simpl; intros;
    try lia; auto.
  apply IH; lia.
Qed.

Lemma length_mat_init {A : Type} (L N : nat) (f : nat -> nat -> A) :
  length (mat_init L N f) = L.
Proof. unfold mat_init. now rewrite length_map, length_seq. Qed.

Lemma nth_map_seq {A : Type} (g : nat -> A) (N c : nat) (d : A) :
  (c < N)%nat -> nth c (map g (seq 0 N)) d = g c.
Proof.
  intros Hc.
  rewrite (nth_indep _ d (g 0%nat)) by now rewrite length_map, length_seq.
  rewrite (map_nth g), seq_nth by assumption. reflexivity.
Qed.

Lemma nth_mat_init {A : Type} (L N : nat) (f : nat -> nat -> A) (r : nat) (d : list A) :
  (r < L)%nat -> nth r (mat_init L N f) d = map (fun c => f r c) (seq 0 N).
Proof.
  intros Hr. unfold mat_init.
  now rewrite (nth_map_seq (fun r => map (fun c => f r c) (seq 0 N))).
Qed.

Lemma length_roll (l : list Q) (s : Z) : length (roll l s) = length l.
Proof.
  unfold roll. destruct (length l) eqn:E; [assumption|].
  rewrite length_app, length_skipn, length_firstn. lia.
Qed.

Lemma nth_roll (l : list Q) (s : Z) (i : nat) (d : Q) :
  (i < length l)%nat ->
  nth i (roll l s) d =
  nth (Z.to_nat ((Z.of_nat i - s) mod Z.of_nat (length l))) l d.
Proof.
  intros Hi. unfold roll.
  destruct (length l) as [|n'] eqn:E; [lia|].
  set (n := S n') in *.
  assert (Hn : (0 < Z.of_nat n)%Z) by lia.
  pose proof (Z.mod_pos_bound s (Z.of_nat n) Hn) as Ho.
  set (o := Z.to_nat (s mod Z.of_nat n)).
  assert (Hoz : Z.of_nat o = (s mod Z.of_nat n)%Z) by (unfold o; lia).
  assert (Hs : s = (Z.of_nat n * (s / Z.of_nat n) + Z.of_nat o)%Z)
    by (rewrite Hoz; apply Z.div_mod; lia).
  destruct (Nat.lt_ge_cases i o) as [Hlt | Hge].
  - rewrite app_nth1 by (rewrite length_skipn; lia).
    rewrite nth_skipn. f_equal.
    assert ((Z.of_nat i - s) mod Z.of_nat n = Z.of_nat (n - o + i))%Z as ->; [|lia].
    symmetry. apply Z.mod_unique with (q := (- (s / Z.of_nat n) - 1)%Z); [lia|].
    rewrite Hs at 1. lia.
  - rewrite app_nth2 by (rewrite length_skipn; lia).
    rewrite length_skipn, nth_firstn.
    replace (i - (length l - (n - o)))%nat with (i - o)%nat by lia.
    destruct (i - o <? n - o)%nat eqn:Hlt; [|apply Nat.ltb_ge in Hlt; lia].
    f_equal.
    assert ((Z.of_nat i - s) mod Z.of_nat n = Z.of_nat (i - o))%Z as ->; [|lia].
    symmetry. apply Z.mod_unique with (q := (- (s / Z.of_nat n))%Z); [lia|].
    rewrite Hs at 1. lia.
Qed.

Lemma length_set_row {A : Type} (r : nat) (row : list A) (m : list (list A)) :
  length (set_row r row m) = length m.
Proof.
  revert r; induction m as [|x m IH]; intros [|r]; simpl; auto.
Qed.

Lemma nth_set_row_eq {A : Type} (r : nat) (row : list A) (m : list (list A)) d :
  (r < length m)%nat -> nth r (set_row r row m) d = row.
Proof.
  revert r; induction m as [|x m IH]; intros [|r]; simpl; intros; try lia; auto.
  apply IH; lia.
Qed.

Lemma nth_set_row_neq {A : Type} (r r' : nat) (row : list A) (m : list (list A)) d :
  r <> r' -> nth r' (set_row r row m) d = nth r' m d.
Proof.
  revert r r'; induction m as [|x m IH]; intros [|r] [|r']; simpl; intros; try lia; auto.
Qed.

Lemma mat_init_ext {A : Type} (L N : nat) (f g : nat -> nat -> A) :
  (forall r c, (r < L)%nat -> (c < N)%nat -> f r c = g r c) ->
  mat_init L N f = mat_init L N g.
Proof.
  intros H. unfold mat_init. apply map_ext_in. intros r Hr.
  apply map_ext_in. intros c Hc. apply in_seq in Hr, Hc. apply H; lia.
Qed.

Lemma zip_with_map {A B C D : Type} (f : A -> B -> C) (a : D -> A) (b : D -> B)
      (l : list D) :
  zip_with f (map a l) (map b l) = map (fun x => f (a x) (b x)) l.
Proof. induction l; simpl; congruence. Qed.

Lemma mat_zip_init {A B C : Type} (f : A -> B -> C) (L N : nat)
      (a : nat -> nat -> A) (b : nat -> nat -> B) :
  mat_zip f (mat_init L N a) (mat_init L N b) =
  mat_init L N (fun r c => f (a r c) (b r c)).
Proof.
  unfold mat_zip, mat_init. rewrite zip_with_map.
  apply map_ext. intros r. apply zip_with_map.
Qed.

Lemma map_map_init {A B : Type} (h : A -> B) (L N : nat) (a : nat -> nat -> A) :
  map (map h) (mat_init L N a) = mat_init L N (fun r c => h (a r c)).
Proof.
  unfold mat_init. rewrite map_map. apply map_ext. intros r. apply map_map.
Qed.

Lemma map_nth_seq {A : Type} (row : list A) (d : A) :
  map (fun c => nth c row d) (seq 0 (length row)) = row.
Proof.
  apply nth_ext with (d := d) (d' := d).
  - now rewrite length_map, length_seq.
  - intros n Hn. rewrite length_map, length_seq in Hn.
    now rewrite nth_map_seq.
Qed.

Lemma repeat_init {A : Type} (row : list A) (L : nat) (d : A) :
  repeat row L = mat_init L (length row) (fun _ c => nth c row d).
Proof.
  unfold mat_init. rewrite map_nth_seq.
  induction L as [|L IH]; [reflexivity|].
  rewrite seq_S, map_app. simpl. rewrite <- IH.
  clear IH. induction L; simpl; congruence.
Qed.

Lemma set_row_init {A : Type} (k L N : nat) (row : list A) (F : nat -> nat -> A) (d : A) :
  (k < L)%nat -> length row = N ->
  set_row k row (mat_init L N F) =
  mat_init L N (fun r c => if (r =? k)%nat then nth c row d else F r c).
Proof.
  intros Hk <-. apply nth_ext with (d := []) (d' := []).
  - now rewrite length_set_row, !length_mat_init.
  - intros r Hr. rewrite length_set_row, length_mat_init in Hr.
    rewrite nth_mat_init by assumption.
    destruct (Nat.eq_dec k r) as [->|Hne].
    + rewrite nth_set_row_eq by now rewrite length_mat_init.
      rewrite <- (map_nth_seq row d) at 1. apply map_ext. intros c.
      now rewrite Nat.eqb_refl.
    + rewrite nth_set_row_neq by assumption.
      rewrite nth_mat_init by assumption. apply map_ext. intros c.
      destruct (Nat.eqb_spec r k); [congruence|reflexivity].
Qed.

Lemma shifted_matrices_prefix (L : nat) (data : list Q) (k : nat) :
  (k <= L)%nat ->
  fold_left
    (fun acc shift_ix =>
       let shift := (Z.of_nat shift_ix + 1)%Z in
       (set_row shift_ix (roll data (- shift)) (fst acc),
        set_row shift_ix (roll data shift) (snd acc)))
    (seq 0 k)
    (mat_init L (length data) (fun _ _ => 0),
     mat_init L (length data) (fun _ _ => 0)) =
  (mat_init L (length data)
     (fun r c => if (r <? k)%nat
                 then nth c (roll data (- (Z.of_nat r + 1))) 0 else 0),
   mat_init L (length data)
     (fun r c => if (r <? k)%nat
                 then nth c (roll data (Z.of_nat r + 1)) 0 else 0)).
Proof.
  induction k as [|k IH]; intros Hk.
  - reflexivity.
  - rewrite seq_S, fold_left_app, IH by lia. cbn [fold_left fst snd Nat.add].
    f_equal.
    all: rewrite set_row_init with (d := 0) (N := length data) by (try apply length_roll; lia).
    all: apply mat_init_ext; intros r c _ _.
    all: destruct (Nat.eqb_spec r k) as [->|Hne];
      [ destruct (Nat.ltb_spec k (S k)); [reflexivity|lia]
      | destruct (Nat.ltb_spec r k), (Nat.ltb_spec r (S k)); try lia; reflexivity ].
Qed.

Lemma shifted_matrices_init (L : nat) (data : list Q) :
  shifted_matrices L (length data) data =
  (mat_init L (length data) (fun r c => nth c (roll data (- (Z.of_nat r + 1))) 0),
   mat_init L (length data) (fun r c => nth c (roll data (Z.of_nat r + 1)) 0)).
Proof.
  unfold shifted_matrices. rewrite shifted_matrices_prefix by lia.
  f_equal; apply mat_init_ext; intros r c Hr _;
    destruct (Nat.ltb_spec r L); try lia; reflexivity.
Qed.

(** ** The scalogram *)

Section Scalogram.

Variable detrend : list Q -> list Q.

Lemma scales_nonneg (N : nat) : (1 <= N)%nat -> (0 <= scales N)%Z.
Proof.
  intros HN. unfold scales.
  assert (1 <= (Z.of_nat N + 1) / 2)%Z; [|lia].
  apply Z.div_le_lower_bound; lia.
Qed.

Lemma rows_of_spec (N : nat) :
  (1 <= N)%nat -> (2 * rows_of N + 1 = N \/ 2 * rows_of N + 2 = N)%nat.
Proof.
  intros HN. unfold rows_of. pose proof (scales_nonneg HN) as H0.
  unfold scales in *.
  pose proof (Z.div_mod (Z.of_nat N + 1) 2 ltac:(lia)) as Hd.
  pose proof (Z.mod_pos_bound (Z.of_nat N + 1) 2 ltac:(lia)) as Hm.
  lia.
Qed.

Lemma mask_eq (d : list Q) (r c : nat) :
  (r < rows_of (length d))%nat -> (c < length d)%nat ->
  ((Z.of_nat r + 1 + 1 <=? Z.of_nat c)%Z
   && (Z.of_nat c <=? Z.of_nat (length d) - (Z.of_nat r + 1))%Z
   && Qgtb (nth c d 0) (nth c (roll d (- (Z.of_nat r + 1))) 0)
   && Qgtb (nth c d 0) (nth c (roll d (Z.of_nat r + 1)) 0))%bool
  = zeroed d (length d) r c.
Proof.
  intros Hr Hc. unfold zeroed.
  assert (HA : (Z.of_nat r + 1 + 1 <=? Z.of_nat c)%Z = (r + 2 <=? c)%nat).
  { destruct (Z.leb_spec (Z.of_nat r + 1 + 1) (Z.of_nat c)),
             (Nat.leb_spec (r + 2) c); try lia; reflexivity. }
  assert (HB : (Z.of_nat c <=? Z.of_nat (length d) - (Z.of_nat r + 1))%Z
               = (c + (r + 1) <=? length d)%nat).
  { destruct (Z.leb_spec (Z.of_nat c) (Z.of_nat (length d) - (Z.of_nat r + 1))),
             (Nat.leb_spec (c + (r + 1)) (length d)); try lia; reflexivity. }
  rewrite HA, HB.
  destruct (Nat.leb_spec (r + 2) c) as [HA'|]; [|reflexivity].
  destruct (Nat.leb_spec (c + (r + 1)) (length d)) as [HB'|]; [|reflexivity].
  rewrite !nth_roll by assumption.
  replace (Z.of_nat c - - (Z.of_nat r + 1))%Z
    with (Z.of_nat (c + (r + 1))) by lia.
  rewrite <- Nat2Z.inj_mod, Nat2Z.id.
  rewrite Z.mod_small by lia.
  replace (Z.to_nat (Z.of_nat c - (Z.of_nat r + 1))) with (c - (r + 1))%nat by lia.
  reflexivity.
Qed.

Lemma scalogram_eq (data : ndarray) (N : nat) (g : rng) :
  shape (squeeze data) = [N] -> (1 <= N)%nat ->
  length (detrend (flat data)) = N ->
  _local_maxima_scalogram detrend data g =
  (inr (mat_init (rows_of N) N (lms_entry (detrend (flat data)) g N)),
   advance g (rows_of N * N)).
Proof.
  intros Hshape HN Hlen.
  unfold _local_maxima_scalogram, bind, lift, ret, _validate_vector.
  rewrite Hshape. cbn [length Nat.ltb Nat.leb].
  unfold shape_at. cbn [shape]. rewrite Hshape. cbn [nth_error flat].
  change (flat (squeeze data)) with (flat data).
  unfold random_sample.
  pose proof (scales_nonneg HN) as H0.
  destruct (Z.ltb_spec (scales N) 0) as [|_]; [lia|].
  fold (rows_of N).
  subst N. rewrite shifted_matrices_init.
  rewrite !map_map_init, (repeat_init _ _ 0), !mat_zip_init.
  do 2 f_equal. apply mat_init_ext. intros r c Hr Hc.
  rewrite mask_eq by assumption. reflexivity.
Qed.

End Scalogram.

(** ** The peak detector *)

Lemma Qgtb_true (x y : Q) : Qgtb x y = true <-> y < x.
Proof.
  unfold Qgtb. rewrite negb_true_iff. split; intros H.
  - apply Qnot_le_lt. intros Hle. apply Qle_bool_iff in Hle. congruence.
  - destruct (Qle_bool x y) eqn:E; [|reflexivity].
    apply Qle_bool_iff in E. exfalso. exact (Qlt_not_le _ _ H E).
Qed.

Lemma Qgtb_false (x y : Q) : Qgtb x y = false <-> x <= y.
Proof.
  unfold Qgtb. rewrite negb_false_iff. apply Qle_bool_iff.
Qed.

Lemma argmin_from_spec (pre l : list Q) (best_ix : nat) (best : Q) :
  (best_ix < length pre)%nat ->
  nth best_ix pre 0 = best ->
  (forall j, (j < length pre)%nat -> best <= nth j pre 0) ->
  (forall j, (j < best_ix)%nat -> best < nth j pre 0) ->
  let r := argmin_from best_ix best (length pre) l in
  (r < length (pre ++ l))%nat /\
  (forall j, (j < length (pre ++ l))%nat ->
             nth r (pre ++ l) 0 <= nth j (pre ++ l) 0) /\
  (forall j, (j < r)%nat -> nth r (pre ++ l) 0 < nth j (pre ++ l) 0).
Proof.
  revert pre best_ix best.
  induction l as [|x l IH]; intros pre best_ix best Hix Hbest Hmin Hfirst.
  - cbn [argmin_from]. rewrite app_nil_r. subst best. auto.
  - cbn [argmin_from].
    replace (pre ++ x :: l) with ((pre ++ [x]) ++ l)
      by (rewrite <- app_assoc; reflexivity).
    replace (S (length pre)) with (length (pre ++ [x]))
      by (rewrite length_app; simpl; lia).
    destruct (Qgtb best x) eqn:E.
    + apply Qgtb_true in E.
      apply IH.
      * rewrite length_app; simpl; lia.
      * rewrite app_nth2, Nat.sub_diag by lia. reflexivity.
      * intros j Hj. rewrite length_app in Hj. simpl in Hj.
        destruct (Nat.lt_ge_cases j (length pre)) as [Hlt|Hge].
        -- rewrite app_nth1 by assumption.
           apply Qle_trans with best; [apply Qlt_le_weak; assumption|auto].
        -- replace j with (length pre) by lia.
           rewrite app_nth2, Nat.sub_diag by lia. apply Qle_refl.
      * intros j Hj. rewrite app_nth1 by assumption.
        apply Qlt_le_trans with best; auto.
    + apply Qgtb_false in E.
      apply IH.
      * rewrite length_app; simpl; lia.
      * rewrite app_nth1 by assumption. assumption.
      * intros j Hj. rewrite length_app in Hj. simpl in Hj.
        destruct (Nat.lt_ge_cases j (length pre)) as [Hlt|Hge].
        -- rewrite app_nth1 by assumption. auto.
        -- replace j with (length pre) by lia.
           rewrite app_nth2, Nat.sub_diag by lia. assumption.
      * intros j Hj. rewrite app_nth1 by lia. auto.
Qed.

Lemma argmin_spec (gamma : list Q) :
  gamma <> [] ->
  exists k, argmin gamma = inr k /\ is_global_min gamma k /\
            forall j, (j < k)%nat -> nth k gamma 0 < nth j gamma 0.
Proof.
  destruct gamma as [|x l]; [congruence|]. intros _.
  exists (argmin_from 0 x 1 l). split; [reflexivity|].
  pose proof (@argmin_from_spec [x] l 0%nat x) as H.
  cbn [length app] in H.
  destruct H as (H1 & H2 & H3); try (simpl; lia); try reflexivity.
  - intros [|j] Hj; [apply Qle_refl|simpl in Hj; lia].
  - unfold is_global_min. auto.
Qed.

Lemma nonzero_std_axis0 (m : matrix) :
  nonzero (map root_eqb_zero (std_axis0 m 1)) =
  filter (fun i => root_eqb_zero (std (mat_column m i) 1)) (seq 0 (ncols m)).
Proof.
  unfold nonzero, std_axis0. rewrite !length_map, length_seq.
  apply filter_ext_in. intros i Hi. apply in_seq in Hi.
  rewrite map_map. rewrite nth_map_seq by lia. reflexivity.
Qed.

Lemma ncols_firstn_init (L N k : nat) (f : nat -> nat -> Q) :
  (1 <= L)%nat -> ncols (firstn (k + 1) (mat_init L N f)) = N.
Proof.
  intros HL. destruct L as [|L]; [lia|].
  unfold mat_init. rewrite <- cons_seq. cbn [map]. rewrite Nat.add_1_r.
  cbn [firstn ncols]. now rewrite length_map, length_seq.
Qed.

Section PeakDetector.

Variable detrend : list Q -> list Q.

Lemma rows_of_pos (N : nat) : (3 <= N)%nat -> (1 <= rows_of N)%nat.
Proof. intros HN. destruct (@rows_of_spec N); lia. Qed.

Lemma ampd_peaks_eq (data : ndarray) (N : nat) (g : rng) :
  shape (squeeze data) = [N] -> (3 <= N)%nat ->
  length (detrend (flat data)) = N ->
  let lms := mat_init (rows_of N) N (lms_entry (detrend (flat data)) g N) in
  exists global_min,
    argmin (sum_axis1 lms) = inr global_min /\
    is_global_min (sum_axis1 lms) global_min /\
    ampd_peaks detrend data g =
    (inr (peaks_of lms N global_min), advance g (rows_of N * N)).
Proof.
  intros Hshape HN Hlen lms.
  destruct (@argmin_spec (sum_axis1 lms)) as (k & Hk & Hmin & _).
  { pose proof (rows_of_pos HN) as HL. unfold sum_axis1, lms, mat_init.
    destruct (rows_of N); [lia|]. rewrite <- cons_seq. discriminate. }
  exists k. split; [assumption|]. split; [assumption|].
  unfold ampd_peaks, bind. rewrite (@scalogram_eq detrend data N g) by (auto; lia).
  fold lms. unfold lift. rewrite Hk. unfold ret. f_equal. f_equal.
  rewrite nonzero_std_axis0. unfold peaks_of, lms.
  rewrite ncols_firstn_init by (apply rows_of_pos; assumption).
  reflexivity.
Qed.

End PeakDetector.

(** ** Sample standard deviation *)

Lemma Qsum_squares_nonneg (l : list Q) : 0 <= Qsum (map (fun v => v * v) l).
Proof.
  induction l as [|x l IH]; simpl; [apply Qle_refl|]. nra.
Qed.

Lemma Qsum_squares_zero (l : list Q) :
  Qsum (map (fun v => v * v) l) == 0 <-> forall v, In v l -> v == 0.
Proof.
  induction l as [|x l IH]; simpl.
  - split; [intros _ v []|reflexivity].
  - pose proof (Qsum_squares_nonneg l) as Hl. split.
    + intros H v [<-|Hv].
      * nra.
      * apply IH; [|assumption]. nra.
    + intros H.
      assert (Hx : x == 0) by (apply H; auto).
      assert (Hr : Qsum (map (fun v => v * v) l) == 0) by (apply IH; auto).
      rewrite Hx, Hr. reflexivity.
Qed.

Lemma Qsum_constant (l : list Q) (x0 : Q) :
  (forall x, In x l -> x == x0) ->
  Qsum l == inject_Z (Z.of_nat (length l)) * x0.
Proof.
  induction l as [|x l IH]; intros H.
  - simpl. ring.
  - cbn [Qsum fold_right length]. fold (Qsum l).
    rewrite IH by (intros; apply H; simpl; auto).
    rewrite (H x) by (simpl; auto).
    rewrite Nat2Z.inj_succ. unfold Z.succ. rewrite inject_Z_plus. ring.
Qed.

Lemma true_divide_nonzero (x : Q) (n : Z) :
  n <> 0%Z -> true_divide x n = Fin (x / inject_Z n).
Proof.
  intros Hn. unfold true_divide.
  destruct (Z.eqb_spec n 0); [contradiction|reflexivity].
Qed.

Lemma inject_Z_nonzero (n : Z) : n <> 0%Z -> ~ inject_Z n == 0.
Proof.
  intros Hn H. apply Hn. unfold Qeq, inject_Z in H. simpl in H. lia.
Qed.

(** With one sample and one degree of freedom removed the variance is
    the quotient 0 / 0. *)
Lemma var_single (x : Q) : var [x] 1 = NaN.
Proof.
  unfold var. cbn [length Z.of_nat Pos.of_succ_nat].
  rewrite true_divide_nonzero by discriminate.
  cbn [map Qsum fold_right Z.sub Z.add Z.opp Z.pos_sub Z.max Z.compare].
  unfold true_divide. cbn [Z.eqb].
  assert (H : (x - (x + 0) / inject_Z 1) * (x - (x + 0) / inject_Z 1) + 0 == 0).
  { change (inject_Z 1) with 1. field. }
  apply Qeq_bool_iff in H. rewrite H. reflexivity.
Qed.

(** The sample standard deviation of a column is exactly zero when the
    column has at least two entries and they are all equal. *)
Lemma std_zero_iff (xs : list Q) :
  root_eqb_zero (std xs 1) = true <->
  (2 <= length xs)%nat /\ forall x y, In x xs -> In y xs -> x == y.
Proof.
  destruct xs as [|x0 [|x1 xs]].
  - cbn. split; [discriminate|intros [H _]; lia].
  - unfold std. rewrite var_single. cbn. split; [discriminate|intros [H _]; lia].
  - set (l := x0 :: x1 :: xs).
    assert (Hn : (Z.of_nat (length l) <> 0)%Z) by (unfold l; cbn [length]; lia).
    assert (Hn1 : (Z.max (Z.of_nat (length l) - 1) 0 <> 0)%Z)
      by (unfold l; cbn [length]; lia).
    unfold std, var. rewrite (true_divide_nonzero _ Hn).
    rewrite (true_divide_nonzero _ Hn1). cbn [root_eqb_zero].
    set (mean := Qsum l / inject_Z (Z.of_nat (length l))).
    set (S := Qsum (map (fun v => v * v) (map (fun v => v - mean) l))).
    pose proof (inject_Z_nonzero Hn) as Hq.
    pose proof (inject_Z_nonzero Hn1) as Hq1.
    rewrite Qeq_bool_iff.
    assert (HS : S / inject_Z (Z.max (Z.of_nat (length l) - 1) 0) == 0 <-> S == 0).
    { split; intros H.
      - rewrite <- (Qmult_div_r S _ Hq1), H. ring.
      - rewrite H. field. assumption. }
    rewrite HS. unfold S. rewrite Qsum_squares_zero.
    split.
    + intros H. split; [simpl; lia|]. intros x y Hx Hy.
      assert (Hxm : x - mean == 0) by (apply H, in_map_iff; eauto).
      assert (Hym : y - mean == 0) by (apply H, in_map_iff; eauto).
      lra.
    + intros [_ H] v Hv. apply in_map_iff in Hv. destruct Hv as (x & <- & Hx).
      assert (Hm : mean == x0).
      { unfold mean. rewrite (@Qsum_constant l x0) by (intros; apply H; simpl; auto).
        field. assumption. }
      rewrite Hm, (H x x0) by (simpl; auto). ring.
Qed.

(** ** Results about the peak detector *)

Lemma squeeze_vec (xs : list Q) : length xs <> 1%nat -> squeeze (vec xs) = vec xs.
Proof.
  intros H. unfold squeeze, vec. cbn [shape flat filter].
  destruct (Nat.eqb_spec (length xs) 1); [contradiction|reflexivity].
Qed.

Lemma filter_none {A : Type} (f : A -> bool) (l : list A) :
  (forall x, In x l -> f x = false) -> filter f l = [].
Proof.
  induction l as [|x l IH]; intros H; [reflexivity|].
  cbn [filter]. rewrite (H x) by (simpl; auto).
  apply IH. intros y Hy. apply H. simpl; auto.
Qed.

Lemma sorted_filter_seq (f : nat -> bool) (a n : nat) :
  StronglySorted lt (filter f (seq a n)).
Proof.
  revert a. induction n as [|n IH]; intros a; cbn [seq filter].
  - constructor.
  - destruct (f a); [|apply IH].
    constructor; [apply IH|].
    apply Forall_forall. intros x Hx.
    apply filter_In in Hx. destruct Hx as [Hx _]. apply in_seq in Hx. lia.
Qed.

Section PeakDetectorResults.

Variable detrend : list Q -> list Q.

(** C10: when the least row sum is that of the first scale, the matrix
    restricted to the rows up to that scale has one row, the standard
    deviation with one degree of freedom removed is NaN in every column,
    and the detector returns no peak. *)
Theorem C10_first_scale_yields_no_peak
        (data : ndarray) (g g' : rng) (lms : matrix) :
  _local_maxima_scalogram detrend data g = (inr lms, g') ->
  argmin (sum_axis1 lms) = inr 0%nat ->
  let restricted := firstn (0 + 1) lms in
  length restricted = 1%nat /\
  length (std_axis0 restricted 1) = ncols lms /\
  (forall s, In s (std_axis0 restricted 1) -> s = Sqrt NaN) /\
  ampd_peaks detrend data g = (inr [], g').
Proof.
  intros Hs Ha restricted.
  destruct lms as [|row0 rest]; [discriminate|].
  assert (Hstd : forall s, In s (std_axis0 restricted 1) -> s = Sqrt NaN).
  { intros s Hin. unfold std_axis0 in Hin. apply in_map_iff in Hin.
    destruct Hin as (c & <- & _). cbn. unfold std. now rewrite var_single. }
  repeat split.
  - unfold std_axis0. now rewrite length_map, length_seq.
  - assumption.
  - unfold ampd_peaks, bind, lift, ret. rewrite Hs, Ha.
    fold restricted. f_equal. f_equal.
    unfold nonzero. apply filter_none. intros i Hi. apply in_seq in Hi.
    rewrite length_map in Hi.
    rewrite nth_indep with (d' := root_eqb_zero (Sqrt NaN))
      by (rewrite length_map; lia).
    rewrite map_nth. rewrite (Hstd (nth i (std_axis0 restricted 1) (Sqrt NaN))).
    + reflexivity.
    + apply nth_In. lia.
Qed.




(** C2: a one-dimensional signal of two samples has no scale, and the
    detector returns no set of indices for it: taking the least of the
    empty vector of row sums raises a [ValueError]. *)
Theorem C2_two_samples_have_no_set_of_peaks (x y : Q) (g : rng) :
  ndim (squeeze (vec [x; y])) = 1%nat /\
  (forall lms g', _local_maxima_scalogram detrend (vec [x; y]) g
                  = (inr lms, g') -> lms = []) /\
  (forall peaks, fst (ampd_peaks detrend (vec [x; y]) g) <> inr peaks) /\
  is_ValueError (fst (ampd_peaks detrend (vec [x; y]) g)) = true.
Proof.
  split; [reflexivity|]. split; [|split; [|reflexivity]].
  - intros lms g'. unfold _local_maxima_scalogram, bind, lift, ret.
    cbn. intros [= <- _]. reflexivity.
  - intros peaks. cbn. discriminate.
Qed.


End PeakDetectorResults.

(** ** The phase estimator *)

Lemma take_in_range (t : list Q) (ix : list nat) :
  (forall i, In i ix -> (i < length t)%nat) ->
  take t ix = inr (map (fun i => nth i t 0) ix).
Proof.
  induction ix as [|i ix IH]; intros H; [reflexivity|].
  cbn [take map].
  destruct (nth_error t i) as [x|] eqn:E.
  - rewrite IH by (intros; apply H; simpl; auto). cbn [ebind].
    now rewrite (nth_error_nth _ _ 0 E).
  - apply nth_error_None in E. specialize (H i (or_introl eq_refl)). lia.
Qed.

Lemma nth_arange (n i : nat) :
  (i < n)%nat -> nth i (arange n) 0 = inject_Z (Z.of_nat i).
Proof. intros H. unfold arange. now rewrite nth_map_seq. Qed.

Lemma length_arange (n : nat) : length (arange n) = n.
Proof. unfold arange. now rewrite length_map, length_seq. Qed.

Lemma length_diff (l : list nat) : length (diff l) = (length l - 1)%nat.
Proof.
  induction l as [|x [|y l] IH]; try reflexivity.
  cbn [diff length] in *. rewrite IH. lia.
Qed.

Lemma nth_diff (l : list nat) (j : nat) :
  (j + 1 < length l)%nat ->
  nth j (diff l) 0%Z = (Z.of_nat (nth (j + 1) l 0%nat) - Z.of_nat (nth j l 0%nat))%Z.
Proof.
  revert j. induction l as [|x [|y l] IH]; intros j Hj; try (simpl in Hj; lia).
  destruct j as [|j]; [reflexivity|].
  cbn [diff]. cbn [nth]. change (S j + 1)%nat with (S (j + 1)). cbn [nth].
  apply IH. simpl in *. lia.
Qed.

Lemma sorted_nth_lt (l : list nat) (i j : nat) :
  StronglySorted lt l -> (i < j)%nat -> (j < length l)%nat ->
  (nth i l 0 < nth j l 0)%nat.
Proof.
  intros Hs. revert i j. induction Hs as [|x l Hs IH Hall]; intros i j Hij Hj.
  - simpl in Hj. lia.
  - destruct j as [|j]; [lia|]. simpl in Hj. destruct i as [|i]; cbn [nth].
    + rewrite Forall_forall in Hall. apply Hall, nth_In. lia.
    + apply IH; lia.
Qed.

Section PhaseEstimator.

Variable detrend : list Q -> list Q.
Variable fit_transform : ndarray -> exn + ndarray.

(** The estimator once both detections have returned. *)
Lemma relative_phase_after_detection
      (a : ndarray) (b : option ndarray) (t : option (list Q))
      (a' b' : ndarray) (tl : list Q) (pa pb : list nat) (g g1 g2 : rng) :
  _validate_vectors fit_transform a b = inr (a', b') ->
  time_base t a' tl ->
  ampd_peaks detrend a' g = (inr pa, g1) ->
  ampd_peaks detrend b' g1 = (inr pb, g2) ->
  let len := crop_length pa pb in
  relative_phase detrend fit_transform a b t g =
  (ebind (take tl (firstn len pa)) (fun t_a =>
   ebind (take tl (firstn len pb)) (fun t_b =>
   inr (t_a, t_b, phases pa pb len))), g2).
Proof.
  intros Hv Ht Ha Hb len.
  unfold relative_phase. unfold bind at 1. unfold lift at 1. rewrite Hv.
  cbn [fst snd].
  assert (Htb : (match t with
                 | Some t0 => ret t0
                 | None => bind (lift (shape_at a' 0)) (fun n => ret (arange n))
                 end) g = (inr tl, g)).
  { destruct t as [t'|]; cbn in Ht.
    - now subst.
    - destruct Ht as (n & Hn & ->). unfold bind, lift, ret. now rewrite Hn. }
  unfold bind at 1. rewrite Htb.
  unfold bind at 1. rewrite Ha.
  unfold bind at 1. rewrite Hb.
  fold (crop_length pa pb). fold len. fold (phases pa pb len).
  unfold bind, lift, ret.
  destruct (take tl (firstn len pa)) as [e|t_a]; [reflexivity|].
  destruct (take tl (firstn len pb)) as [e|t_b]; reflexivity.
Qed.

End PhaseEstimator.

Lemma in_firstn {A : Type} (n : nat) (l : list A) (x : A) :
  In x (firstn n l) -> In x l.
Proof.
  revert l. induction n as [|n IH]; intros [|y l] H; simpl in *; try tauto.
  destruct H; auto.
Qed.

Lemma crop_length_le (pa pb : list nat) :
  (crop_length pa pb <= length pa /\ crop_length pa pb <= length pb /\
   crop_length pa pb <= length (diff pa))%nat.
Proof. unfold crop_length. lia. Qed.

Lemma phases_spec (pa pb : list nat) :
  let len := crop_length pa pb in
  length (phases pa pb len) = len /\
  forall j, (j < len)%nat ->
            nth j (phases pa pb len) 0 =
            phase_of (nth j pa 0%nat) (nth j pb 0%nat) (nth j (diff pa) 0%Z).
Proof.
  intros len. destruct (crop_length_le pa pb) as (Ha & Hb & Hd). fold len in Ha, Hb, Hd.
  unfold phases. split.
  - rewrite length_zip_with, length_combine, !length_firstn. lia.
  - intros j Hj.
    rewrite nth_zip_with with (dx := (0%nat, 0%nat)) (dy := 0%Z)
      by (rewrite ?length_combine, !length_firstn; lia).
    rewrite combine_nth by (rewrite !length_firstn; lia).
    rewrite !nth_firstn.
    destruct (Nat.ltb_spec j len); [reflexivity|lia].
Qed.

Lemma squeeze_signal (x : ndarray) (N : nat) :
  shape x = [N] -> (3 <= N)%nat -> shape (squeeze x) = [N].
Proof.
  intros Hs HN. unfold squeeze. cbn [shape]. rewrite Hs. cbn [filter].
  destruct (Nat.eqb_spec N 1); [lia|reflexivity].
Qed.

Lemma peaks_of_bound (lms : matrix) (N k p : nat) :
  In p (peaks_of lms N k) -> (p < N)%nat.
Proof.
  unfold peaks_of. rewrite filter_In, in_seq. lia.
Qed.

Section PhaseEstimatorResults.

Variable detrend : list Q -> list Q.
Variable fit_transform : ndarray -> exn + ndarray.

(** What a call returns on two signals of one length with a scale. *)
Lemma relative_phase_valid
      (a : ndarray) (b : option ndarray) (t : option (list Q))
      (a' b' : ndarray) (N : nat) (g : rng) :
  length (detrend (flat a')) = length (flat a') ->
  length (detrend (flat b')) = length (flat b') ->
  _validate_vectors fit_transform a b = inr (a', b') ->
  valid_signals a' b' t N ->
  exists (pa pb : list nat) (tl : list Q) (g1 g2 : rng),
    ampd_peaks detrend a' g = (inr pa, g1) /\
    ampd_peaks detrend b' g1 = (inr pb, g2) /\
    time_base t a' tl /\
    StronglySorted lt pa /\
    relative_phase detrend fit_transform a b t g =
    (inr (map (fun p => nth p tl 0) (firstn (crop_length pa pb) pa),
          map (fun p => nth p tl 0) (firstn (crop_length pa pb) pb),
          phases pa pb (crop_length pa pb)), g2).
Proof.
  intros Hda Hdb Hv (Hsa & Hsb & Hla & Hlb & HN & Ht).
  rewrite Hla in Hda. rewrite Hlb in Hdb.
  pose proof (@squeeze_signal a' N Hsa HN) as Hqa.
  pose proof (@squeeze_signal b' N Hsb HN) as Hqb.
  destruct (@ampd_peaks_eq detrend a' N g Hqa HN Hda) as (ka & _ & _ & Ea).
  set (g1 := advance g (rows_of N * N)) in *.
  destruct (@ampd_peaks_eq detrend b' N g1 Hqb HN Hdb) as (kb & _ & _ & Eb).
  set (g2 := advance g1 (rows_of N * N)) in *.
  set (pa := peaks_of _ N ka) in *. set (pb := peaks_of _ N kb) in *.
  set (tl := match t with Some t' => t' | None => arange N end).
  assert (Htb : time_base t a' tl).
  { unfold time_base, tl. destruct t as [t'|]; [reflexivity|].
    exists N. split; [|reflexivity]. unfold shape_at. now rewrite Hsa. }
  assert (Hlen : length tl = N).
  { unfold tl. destruct t as [t'|]; [now apply Ht|apply length_arange]. }
  exists pa, pb, tl, g1, g2.
  split; [assumption|]. split; [assumption|]. split; [assumption|].
  split; [apply sorted_filter_seq|].
  rewrite (@relative_phase_after_detection detrend fit_transform
             a b t a' b' tl pa pb g g1 g2 Hv Htb Ea Eb).
  rewrite !take_in_range; [reflexivity| |].
  - intros i Hi. apply in_firstn in Hi. apply peaks_of_bound in Hi. lia.
  - intros i Hi. apply in_firstn in Hi. apply peaks_of_bound in Hi. lia.
Qed.

End PhaseEstimatorResults.

(** ** Results about the phase estimator *)

Section PhaseClaims.

Variable detrend : list Q -> list Q.
Variable fit_transform : ndarray -> exn + ndarray.

(** A detection that returns was given an array with a first axis. *)
Lemma ampd_peaks_ok_shape (x : ndarray) (p : list nat) (g g' : rng) :
  ampd_peaks detrend x g = (inr p, g') -> exists n, shape_at x 0 = inr n.
Proof.
  intros H.
  unfold ampd_peaks, _local_maxima_scalogram, bind, lift, _validate_vector in H.
  destruct (1 <? length (shape (squeeze x)))%nat; [discriminate|].
  unfold shape_at in *. cbn [shape] in H.
  destruct (shape (squeeze x)) as [|d s] eqn:E; [discriminate|].
  destruct (shape x) as [|d0 s0] eqn:E0.
  - unfold squeeze in E. rewrite E0 in E. discriminate.
  - cbn. eauto.
Qed.

(** C9: when detection returns fewer than two peaks for the first signal,
    or none for the second, the estimator does not raise; it returns
    three empty vectors. *)
Theorem C9_too_few_peaks_gives_three_empty_vectors
        (a : ndarray) (b : option ndarray) (t : option (list Q))
        (a' b' : ndarray) (pa pb : list nat) (g g1 g2 : rng) :
  _validate_vectors fit_transform a b = inr (a', b') ->
  ampd_peaks detrend a' g = (inr pa, g1) ->
  ampd_peaks detrend b' g1 = (inr pb, g2) ->
  (length pa < 2)%nat \/ length pb = 0%nat ->
  relative_phase detrend fit_transform a b t g = (inr ([], [], []), g2).
Proof.
  intros Hv Ha Hb Hfew.
  destruct (ampd_peaks_ok_shape _ _ Ha) as (n & Hn).
  set (tl := match t with Some t' => t' | None => arange n end).
  assert (Htb : time_base t a' tl).
  { unfold time_base, tl. destruct t; [reflexivity|eauto]. }
  rewrite (@relative_phase_after_detection detrend fit_transform
             a b t a' b' tl pa pb g g1 g2 Hv Htb Ha Hb).
  assert (H0 : crop_length pa pb = 0%nat).
  { unfold crop_length. rewrite length_diff. lia. }
  rewrite H0. reflexivity.
Qed.

(** C3: on two signals of one length with a scale, the estimator takes
    the successive differences of the peaks of A as periods, gives cycle
    [j], below the cropping length, which is the least of the number of
    peaks of A, the number of peaks of B and the number of periods, the
    phase [2 * pi * (peaks_A[j] - peaks_B[j]) / (peaks_A[j+1] - peaks_A[j])],
    and returns the time base read at the cropped peaks of A, at the
    cropped peaks of B, and the phases. *)
Theorem C3_relative_phase_formula
        (a : ndarray) (b : option ndarray) (t : option (list Q))
        (a' b' : ndarray) (N : nat) (g : rng) :
  length (detrend (flat a')) = length (flat a') ->
  length (detrend (flat b')) = length (flat b') ->
  _validate_vectors fit_transform a b = inr (a', b') ->
  valid_signals a' b' t N ->
  exists (pa pb : list nat) (tl : list Q) (g1 g2 : rng)
         (t_a t_b rel : list Q),
    ampd_peaks detrend a' g = (inr pa, g1) /\
    ampd_peaks detrend b' g1 = (inr pb, g2) /\
    time_base t a' tl /\
    relative_phase detrend fit_transform a b t g = (inr (t_a, t_b, rel), g2) /\
    let len :=
      Nat.min (Nat.min (length pa) (length pb)) (length pa - 1) in
    t_a = map (fun p => nth p tl 0) (firstn len pa) /\
    t_b = map (fun p => nth p tl 0) (firstn len pb) /\
    length rel = len /\
    forall j, (j < len)%nat ->
      let period :=
        (Z.of_nat (nth (j + 1) pa 0%nat) - Z.of_nat (nth j pa 0%nat))%Z in
      (0 < period)%Z /\
      nth j rel 0 =
      2 * np_pi
      * inject_Z (Z.of_nat (nth j pa 0%nat) - Z.of_nat (nth j pb 0%nat))
      / inject_Z period.
Proof.
  intros Hda Hdb Hv Hvalid.
  destruct (@relative_phase_valid detrend fit_transform a b t a' b' N g
              Hda Hdb Hv Hvalid)
    as (pa & pb & tl & g1 & g2 & Ea & Eb & Htb & Hsorted & Hrun).
  exists pa, pb, tl, g1, g2. do 3 eexists.
  split; [exact Ea|]. split; [exact Eb|]. split; [exact Htb|].
  split; [exact Hrun|].
  assert (Hcrop : Nat.min (Nat.min (length pa) (length pb)) (length pa - 1)
                  = crop_length pa pb)
    by (unfold crop_length; now rewrite length_diff).
  cbv zeta. rewrite Hcrop.
  destruct (phases_spec pa pb) as [Hlen Hnth].
  split; [reflexivity|]. split; [reflexivity|]. split; [exact Hlen|].
  intros j Hj.
  assert (Hj1 : (j + 1 < length pa)%nat) by lia.
  pose proof (@nth_diff pa j Hj1) as Hper.
  rewrite <- Hper. split.
  - rewrite Hper.
    pose proof (@sorted_nth_lt pa j (j + 1) Hsorted ltac:(lia) Hj1). lia.
  - rewrite (Hnth j Hj). reflexivity.
Qed.

(** C4 (amended): on two signals of one length with a scale, the three
    returned vectors have one length, the least of the number of peaks of
    A, the number of peaks of B, and the number of peaks of A minus one
    where A has a peak, zero where it has none. *)
Theorem C4_three_vectors_of_one_length
        (a : ndarray) (b : option ndarray) (t : option (list Q))
        (a' b' : ndarray) (N : nat) (g : rng) :
  length (detrend (flat a')) = length (flat a') ->
  length (detrend (flat b')) = length (flat b') ->
  _validate_vectors fit_transform a b = inr (a', b') ->
  valid_signals a' b' t N ->
  exists (pa pb : list nat) (g1 g2 : rng) (t_a t_b rel : list Q),
    ampd_peaks detrend a' g = (inr pa, g1) /\
    ampd_peaks detrend b' g1 = (inr pb, g2) /\
    relative_phase detrend fit_transform a b t g = (inr (t_a, t_b, rel), g2) /\
    length t_a = length rel /\ length t_b = length rel /\
    Z.of_nat (length rel) =
    Z.min (Z.min (Z.of_nat (length pa)) (Z.of_nat (length pb)))
          (Z.max (Z.of_nat (length pa) - 1) 0).
Proof.
  intros Hda Hdb Hv Hvalid.
  destruct (@relative_phase_valid detrend fit_transform a b t a' b' N g
              Hda Hdb Hv Hvalid)
    as (pa & pb & tl & g1 & g2 & Ea & Eb & _ & _ & Hrun).
  exists pa, pb, g1, g2. do 3 eexists.
  split; [exact Ea|]. split; [exact Eb|]. split; [exact Hrun|].
  destruct (phases_spec pa pb) as [Hlen _].
  destruct (crop_length_le pa pb) as (Hla & Hlb & _).
  rewrite !length_map, !length_firstn, Hlen.
  split; [lia|]. split; [lia|].
  unfold crop_length. rewrite length_diff. lia.
Qed.

End PhaseClaims.

(** ** One two-column array or two vectors *)




Section TwoColumns.

Variable detrend : list Q -> list Q.
Variable fit_transform : ndarray -> exn + ndarray.



End TwoColumns.

(** ** The scalogram and the detector on short signals *)

(** C1: on the four detrended samples 0, 1, -2, 1 the scalogram has the
    one row it should have, but its entry at scale 1 and at the last
    sample is zero: the sample is compared with its backward neighbour
    and, there being no forward neighbour, with the first sample. *)
Theorem C1_last_checked_sample_is_compared_with_the_first :
  let data := [0; 1; -2; 1] in
  lstsq_detrend data = data /\
  exists lms g',
    _local_maxima_scalogram lstsq_detrend (vec data) (lcg 0) = (inr lms, g') /\
    Z.of_nat (length lms) = scales (length data) /\
    entry lms 0 3 = 0 /\
    nth_error data (3 + 1) = None /\
    Qgtb (nth 3 data 0) (nth 2 data 0) = true /\
    Qgtb (nth 3 data 0) (nth 0 data 0) = true.
Proof.
  split; [vm_compute; reflexivity|].
  eexists. eexists. split; [vm_compute; reflexivity|].
  repeat split; vm_compute; reflexivity.
Qed.

(** C8: a one-dimensional signal of two samples passes the validation and
    is then refused, the scalogram having no row to take the least of. *)
Theorem C8_two_samples_are_refused
        (detrend : list Q -> list Q) (x y : Q) (g : rng) :
  _validate_vector (vec [x; y]) = inr (vec [x; y]) /\
  fst (ampd_peaks detrend (vec [x; y]) g) =
  inl (ValueError "attempt to get argmin of an empty sequence").
Proof.
  split; reflexivity.
Qed.

(** ** Which inputs are refused *)

Lemma filter_idem {A : Type} (f : A -> bool) (l : list A) :
  filter f (filter f l) = filter f l.
Proof.
  induction l as [|x l IH]; [reflexivity|].
  cbn [filter]. destruct (f x) eqn:E; [|exact IH].
  cbn [filter]. rewrite E. now f_equal.
Qed.

Lemma squeeze_idem (x : ndarray) : squeeze (squeeze x) = squeeze x.
Proof. unfold squeeze. cbn [shape flat]. now rewrite filter_idem. Qed.

Lemma take_not_ValueError (t : list Q) (ix : list nat) :
  is_ValueError (take t ix) = false.
Proof.
  induction ix as [|i ix IH]; [reflexivity|].
  cbn [take]. destruct (nth_error t i); [|reflexivity].
  destruct (take t ix) as [[m|m]|xs]; cbn in *; congruence.
Qed.

Lemma advance_0 (g : rng) : advance g 0 = g.
Proof. destruct g. unfold advance. cbn. now rewrite Nat.add_0_r. Qed.

Lemma advance_advance (g : rng) (k k' : nat) :
  advance (advance g k) k' = advance g (k + k').
Proof. unfold advance. cbn. now rewrite Nat.add_assoc. Qed.

Lemma squeeze_no_unit_axis (x : ndarray) : ~ In 1%nat (shape (squeeze x)).
Proof.
  unfold squeeze. cbn [shape]. intros H. apply filter_In in H.
  destruct H as [_ H]. discriminate.
Qed.

Section Validation.

Variable detrend : list Q -> list Q.
Variable fit_transform : ndarray -> exn + ndarray.

Lemma two_columns_dec (a : ndarray) :
  negb (ndim a =? 2)%nat || negb (nth 1 (shape a) 0 =? 2)%nat = false
  <-> two_columns a.
Proof.
  unfold two_columns. rewrite orb_false_iff, !negb_false_iff, !Nat.eqb_eq.
  reflexivity.
Qed.

Lemma two_columns_shape (a : ndarray) :
  two_columns (squeeze a) ->
  exists n, shape (squeeze a) = [n; 2%nat] /\ n <> 1%nat.
Proof.
  intros [Hn Hc]. pose proof (@squeeze_no_unit_axis a) as Hu.
  unfold ndim in Hn.
  destruct (shape (squeeze a)) as [|n [|m [|k s]]]; try discriminate.
  cbn in Hc. subst m. exists n. split; [reflexivity|].
  intros ->. apply Hu. simpl. auto.
Qed.

Lemma validate_vectors_two (a b : ndarray) :
  _validate_vectors fit_transform a (Some b) =
  ebind (reduced fit_transform a)
        (fun a' => ebind (reduced fit_transform b) (fun b' => inr (a', b'))).
Proof. reflexivity. Qed.

Lemma validate_vectors_one (a : ndarray) :
  two_columns (squeeze a) ->
  _validate_vectors fit_transform a None =
  ebind (reduced fit_transform (column (squeeze a) 0))
        (fun a' => ebind (reduced fit_transform (column (squeeze a) 1))
                         (fun b' => inr (a', b'))).
Proof.
  intros H. apply two_columns_dec in H.
  unfold _validate_vectors. rewrite H. reflexivity.
Qed.

Lemma reduced_column (x : ndarray) (n m j : nat) :
  shape x = [n; m] -> n <> 1%nat ->
  reduced fit_transform (column x j) = inr (column x j).
Proof.
  intros Hs Hn. unfold reduced, column. rewrite Hs.
  unfold squeeze. cbn [shape flat filter].
  destruct (Nat.eqb_spec n 1); [contradiction|]. reflexivity.
Qed.

Lemma validate_vectors_columns (a : ndarray) (n : nat) :
  shape (squeeze a) = [n; 2%nat] ->
  _validate_vectors fit_transform a None =
  inr (column (squeeze a) 0, column (squeeze a) 1).
Proof.
  intros Hs.
  assert (Htwo : two_columns (squeeze a))
    by (unfold two_columns, ndim; rewrite Hs; split; reflexivity).
  destruct (two_columns_shape Htwo) as (n' & Hs' & Hn1).
  rewrite Hs in Hs'. injection Hs' as <-.
  rewrite (validate_vectors_one Htwo).
  rewrite !(@reduced_column (squeeze a) n 2) by assumption.
  reflexivity.
Qed.

Lemma reduced_squeezed (x z : ndarray) :
  reduced fit_transform x = inr z -> squeeze z = z.
Proof.
  unfold reduced, _collapse. destruct (1 <? ndim (squeeze x))%nat.
  - destruct (fit_transform (squeeze x)) as [e|y]; cbn [ebind];
      [discriminate|].
    intros [= <-]. apply squeeze_idem.
  - intros [= <-]. apply squeeze_idem.
Qed.

Lemma validate_vectors_inv (a : ndarray) (b : option ndarray)
      (a' b' : ndarray) :
  _validate_vectors fit_transform a b = inr (a', b') ->
  squeeze a' = a' /\ squeeze b' = b' /\
  (b = None -> two_columns (squeeze a)).
Proof.
  destruct b as [b0|].
  - rewrite validate_vectors_two.
    destruct (reduced fit_transform a) as [e|x] eqn:Ea; [discriminate|].
    cbn [ebind].
    destruct (reduced fit_transform b0) as [e|y] eqn:Eb; [discriminate|].
    cbn [ebind]. intros [= <- <-].
    split; [exact (@reduced_squeezed _ _ Ea)|].
    split; [exact (@reduced_squeezed _ _ Eb)|]. discriminate.
  - destruct (negb (ndim (squeeze a) =? 2)%nat
              || negb (nth 1 (shape (squeeze a)) 0 =? 2)%nat) eqn:E.
    + unfold _validate_vectors. rewrite E. discriminate.
    + apply two_columns_dec in E. rewrite (validate_vectors_one E).
      destruct (reduced fit_transform (column (squeeze a) 0)) as [e|x] eqn:Ea;
        [discriminate|].
      cbn [ebind].
      destruct (reduced fit_transform (column (squeeze a) 1)) as [e|y] eqn:Eb;
        [discriminate|].
      cbn [ebind]. intros [= <- <-].
      split; [exact (@reduced_squeezed _ _ Ea)|].
      split; [exact (@reduced_squeezed _ _ Eb)|]. intros _. exact E.
Qed.

Lemma validate_vectors_raise (a : ndarray) :
  ~ two_columns (squeeze a) ->
  _validate_vectors fit_transform a None =
  inl (ValueError "with one input, array must have be 2D with two columns").
Proof.
  intros H. unfold _validate_vectors.
  destruct (negb (ndim (squeeze a) =? 2)%nat
            || negb (nth 1 (shape (squeeze a)) 0 =? 2)%nat) eqn:E.
  - reflexivity.
  - apply two_columns_dec in E. contradiction.
Qed.

Lemma validate_vectors_one_raise_inv (a : ndarray) (e : exn) :
  _validate_vectors fit_transform a None = inl e ->
  ~ two_columns (squeeze a).
Proof.
  intros H Htwo. destruct (two_columns_shape Htwo) as (n & Hs & _).
  rewrite (@validate_vectors_columns a n Hs) in H. discriminate.
Qed.

Lemma ampd_peaks_refuses (x : ndarray) (g : rng) :
  (1 < ndim (squeeze x))%nat ->
  ampd_peaks detrend x g =
  (inl (ValueError "input cannot be cast to 1D vector"), g).
Proof.
  intros H. unfold ampd_peaks, _local_maxima_scalogram, bind, lift,
              _validate_vector.
  unfold ndim in H. apply Nat.ltb_lt in H. rewrite H. reflexivity.
Qed.

Lemma ampd_peaks_accepts (x : ndarray) (n : nat) (g : rng) :
  (forall xs, length (detrend xs) = length xs) ->
  shape x = [n] -> length (flat x) = n -> (3 <= n)%nat ->
  exists p, ampd_peaks detrend x g = (inr p, advance g (rows_of n * n)).
Proof.
  intros Hd Hs Hl Hn.
  destruct (@ampd_peaks_eq detrend x n g (@squeeze_signal x n Hs Hn) Hn)
    as (k & _ & _ & E).
  - now rewrite Hd.
  - eauto.
Qed.

Lemma relative_phase_refused
      (a : ndarray) (b : option ndarray) (t : option (list Q))
      (e : exn) (g : rng) :
  _validate_vectors fit_transform a b = inl e ->
  relative_phase detrend fit_transform a b t g = (inl e, g).
Proof.
  intros Hv. unfold relative_phase, bind, lift. now rewrite Hv.
Qed.

Lemma shape_at_first (x : ndarray) :
  (1 <= ndim x)%nat -> exists n, shape_at x 0 = inr n.
Proof.
  unfold ndim, shape_at. destruct (shape x); simpl; [lia|eauto].
Qed.

(** On two reduced signals with a scale, whatever the call raises comes
    from the time base, which raises an [IndexError]. *)
Lemma relative_phase_accepted
      (a : ndarray) (b : option ndarray) (t : option (list Q))
      (a' b' : ndarray) (na nb : nat) (g : rng) :
  (forall xs, length (detrend xs) = length xs) ->
  _validate_vectors fit_transform a b = inr (a', b') ->
  shape a' = [na] -> length (flat a') = na -> (3 <= na)%nat ->
  shape b' = [nb] -> length (flat b') = nb -> (3 <= nb)%nat ->
  is_ValueError (fst (relative_phase detrend fit_transform a b t g)) = false
  /\ snd (relative_phase detrend fit_transform a b t g)
     = advance g (rows_of na * na + rows_of nb * nb).
Proof.
  intros Hd Hv Hsa Hla Hna Hsb Hlb Hnb.
  destruct (@ampd_peaks_accepts a' na g Hd Hsa Hla Hna) as (pa & Ea).
  set (g1 := advance g (rows_of na * na)) in *.
  destruct (@ampd_peaks_accepts b' nb g1 Hd Hsb Hlb Hnb) as (pb & Eb).
  assert (Htb : time_base t a'
                  match t with Some t' => t' | None => arange na end).
  { unfold time_base. destruct t; [reflexivity|].
    exists na. unfold shape_at. now rewrite Hsa. }
  rewrite (@relative_phase_after_detection detrend fit_transform
             a b t a' b' _ pa pb g g1 _ Hv Htb Ea Eb).
  cbn [fst snd]. split; [|unfold g1; apply advance_advance].
  destruct (take _ (firstn (crop_length pa pb) pa)) as [e1|ta] eqn:E1.
  { pose proof (take_not_ValueError
                  match t with Some t' => t' | None => arange na end
                  (firstn (crop_length pa pb) pa)) as Hn1.
    rewrite E1 in Hn1. destruct e1; cbn in Hn1 |- *; congruence. }
  cbn [ebind].
  destruct (take _ (firstn (crop_length pa pb) pb)) as [e2|tb] eqn:E2.
  { pose proof (take_not_ValueError
                  match t with Some t' => t' | None => arange na end
                  (firstn (crop_length pa pb) pb)) as Hn2.
    rewrite E2 in Hn2. destruct e2; cbn in Hn2 |- *; congruence. }
  reflexivity.
Qed.

(** What the reduction makes of a regular array: the projection refuses
    three axes or more, and a signal or a table comes out as a signal of
    as many samples. *)
Lemma reduced_regular (x : ndarray) :
  pca_contract fit_transform -> regular (squeeze x) ->
  ((3 <= ndim (squeeze x))%nat /\
   exists msg, reduced fit_transform x = inl (ValueError msg)) \/
  ((ndim (squeeze x) < 3)%nat /\
   exists y n, reduced fit_transform x = inr y /\
               shape y = [n] /\ length (flat y) = n /\ (3 <= n)%nat).
Proof.
  intros [Hrefuse Hproject] [H3|[(n & Hs & Hl & Hn)|(n & m & Hs & Hn & Hm)]].
  - left. split; [exact H3|].
    destruct (Hrefuse (squeeze x) H3) as (msg & E).
    exists msg. unfold reduced, _collapse.
    destruct (Nat.ltb_spec 1 (ndim (squeeze x))); [|lia].
    now rewrite E.
  - right. unfold ndim. rewrite Hs. split; [cbn; lia|].
    exists (squeeze x), n. unfold reduced, ndim. rewrite Hs.
    repeat split; assumption.
  - right. unfold ndim. rewrite Hs. split; [cbn; lia|].
    destruct (Hproject (squeeze x) n m Hs ltac:(lia) Hm) as (y & E & Hsy & Hly).
    exists (squeeze y), n. unfold reduced, _collapse, ndim. rewrite Hs.
    cbn [length Nat.ltb Nat.leb]. rewrite E. cbn [ebind].
    split; [reflexivity|]. unfold squeeze. cbn [shape flat]. rewrite Hsy.
    cbn [filter]. destruct (Nat.eqb_spec n 1); [lia|].
    repeat split; assumption.
Qed.

(** C7 (amended): on arrays that, once squeezed, are signals of at least
    three samples, tables of at least three rows or arrays of three axes
    or more, and with a projection that behaves as the estimator of
    scikit-learn does, the call raises a [ValueError] exactly when the
    second signal is absent and the first, once squeezed, is not
    two-dimensional with two columns, or the second signal is passed and
    one of the two arrays, once squeezed, has three axes or more, which
    the projection refuses.  The error is raised during validation,
    before anything is drawn. *)
Theorem C7_refused_inputs
        (a : ndarray) (b : option ndarray) (t : option (list Q)) (g : rng) :
  (forall xs, length (detrend xs) = length xs) ->
  pca_contract fit_transform ->
  regular_input a b ->
  (is_ValueError (fst (relative_phase detrend fit_transform a b t g)) = true
   <->
   (b = None /\ ~ two_columns (squeeze a)) \/
   (exists b0, b = Some b0 /\
               ((3 <= ndim (squeeze a))%nat \/ (3 <= ndim (squeeze b0))%nat)))
  /\
  (is_ValueError (fst (relative_phase detrend fit_transform a b t g)) = true
   -> snd (relative_phase detrend fit_transform a b t g) = g).
Proof.
  intros Hd Hpca Hreg.
  assert (Hyes : forall e, _validate_vectors fit_transform a b
                           = inl (ValueError e) ->
                 is_ValueError
                   (fst (relative_phase detrend fit_transform a b t g)) = true
                 /\ snd (relative_phase detrend fit_transform a b t g) = g).
  { intros e Hv. rewrite (@relative_phase_refused a b t _ g Hv). split; reflexivity. }
  assert (Hno : forall a' b' na nb,
             _validate_vectors fit_transform a b = inr (a', b') ->
             shape a' = [na] -> length (flat a') = na -> (3 <= na)%nat ->
             shape b' = [nb] -> length (flat b') = nb -> (3 <= nb)%nat ->
             is_ValueError
               (fst (relative_phase detrend fit_transform a b t g)) = false).
  { intros a' b' na nb Hv Hsa Hla Hna Hsb Hlb Hnb.
    exact (proj1 (@relative_phase_accepted a b t a' b' na nb g Hd Hv
                    Hsa Hla Hna Hsb Hlb Hnb)). }
  destruct b as [b0|]; cbn [regular_input] in Hreg.
  - destruct Hreg as [Ra Rb].
    pose proof (validate_vectors_two a b0) as Hv.
    destruct (@reduced_regular a Hpca Ra)
      as [(H3a & msg & Ea)|(Hlow_a & a' & na & Ea & Hsa & Hla & Hna)].
    + rewrite Ea in Hv. cbn [ebind] in Hv.
      destruct (Hyes _ Hv) as [Hraise Hstate].
      split; [|intros _; exact Hstate].
      split; [intros _|intros _; exact Hraise].
      right. exists b0. split; [reflexivity|]. now left.
    + rewrite Ea in Hv. cbn [ebind] in Hv.
      destruct (@reduced_regular b0 Hpca Rb)
        as [(H3b & msg & Eb)|(Hlow_b & b' & nb & Eb & Hsb & Hlb & Hnb)].
      * rewrite Eb in Hv. cbn [ebind] in Hv.
        destruct (Hyes _ Hv) as [Hraise Hstate].
        split; [|intros _; exact Hstate].
        split; [intros _|intros _; exact Hraise].
        right. exists b0. split; [reflexivity|]. now right.
      * rewrite Eb in Hv. cbn [ebind] in Hv.
        pose proof (Hno a' b' na nb Hv Hsa Hla Hna Hsb Hlb Hnb) as Hfalse.
        split; [|rewrite Hfalse; discriminate].
        rewrite Hfalse. split; [discriminate|].
        intros [[Hnone _]|(b1 & [= <-] & [H|H])]; [discriminate|lia|lia].
  - destruct (negb (ndim (squeeze a) =? 2)%nat
              || negb (nth 1 (shape (squeeze a)) 0 =? 2)%nat) eqn:E.
    + assert (Hbad : ~ two_columns (squeeze a)).
      { intros H. apply two_columns_dec in H. congruence. }
      destruct (Hyes _ (@validate_vectors_raise a Hbad)) as [Hraise Hstate].
      split; [|intros _; exact Hstate].
      split; [intros _|intros _; exact Hraise]. now left.
    + apply two_columns_dec in E.
      destruct (two_columns_shape E) as (n & Hs & Hn1).
      pose proof (@validate_vectors_columns a n Hs) as Hv.
      pose proof (Hreg n Hs) as Hn.
      assert (Hcol : forall j, shape (column (squeeze a) j) = [n] /\
                               length (flat (column (squeeze a) j)) = n).
      { intros j. unfold column. rewrite Hs. cbn [shape flat].
        now rewrite length_map, length_seq. }
      pose proof (Hno _ _ n n Hv (proj1 (Hcol 0%nat)) (proj2 (Hcol 0%nat)) Hn
                      (proj1 (Hcol 1%nat)) (proj2 (Hcol 1%nat)) Hn) as Hfalse.
      split; [|rewrite Hfalse; discriminate].
      rewrite Hfalse. split; [discriminate|].
      intros [[_ Hbad]|(b1 & Hb1 & _)]; [contradiction|discriminate].
Qed.

End Validation.

(** ** The generator *)

Lemma rows_of_ceil (N : nat) :
  (1 <= N)%nat -> Z.of_nat (rows_of N) = ((Z.of_nat N + 1) / 2 - 1)%Z.
Proof.
  intros HN. unfold rows_of. pose proof (scales_nonneg HN). unfold scales in *.
  lia.
Qed.

Lemma rows_of_half (N : nat) :
  (1 <= N)%nat -> rows_of N = ((N + 1) / 2 - 1)%nat.
Proof.
  intros HN. apply Nat2Z.inj. rewrite (rows_of_ceil HN).
  pose proof (scales_nonneg HN) as H. unfold scales in H.
  rewrite Nat2Z.inj_sub.
  - rewrite Nat2Z.inj_div, Nat2Z.inj_add. reflexivity.
  - apply Nat2Z.inj_le. rewrite Nat2Z.inj_div, Nat2Z.inj_add.
    change (Z.of_nat 1) with 1%Z. change (Z.of_nat 2) with 2%Z. lia.
Qed.

Lemma draws_of_call_rows (N : nat) :
  (1 <= N)%nat -> draws_of_call N = (rows_of N * N + rows_of N * N)%nat.
Proof. intros HN. unfold draws_of_call. rewrite (rows_of_half HN). lia. Qed.

Lemma agree_upto_le (k k' : nat) (g g' : rng) :
  (k' <= k)%nat -> agree_upto k g g' -> agree_upto k' g g'.
Proof. intros Hle H i Hi. apply H. lia. Qed.

Lemma agree_upto_advance (k k' : nat) (g g' : rng) :
  agree_upto (k + k') g g' -> agree_upto k' (advance g k) (advance g' k).
Proof.
  intros H i Hi. unfold advance. cbn [draws cursor].
  rewrite <- !Nat.add_assoc. apply H. lia.
Qed.

Section Generator.

Variable detrend : list Q -> list Q.
Variable fit_transform : ndarray -> exn + ndarray.

(** The scalogram reads the values drawn for its entries and no other. *)
Lemma lms_entry_window (d : list Q) (g g' : rng) (N r c : nat) :
  agree_upto (rows_of N * N) g g' ->
  (r < rows_of N)%nat -> (c < N)%nat ->
  lms_entry d g N r c = lms_entry d g' N r c.
Proof.
  intros H Hr Hc. unfold lms_entry, baseline.
  rewrite <- !Nat.add_assoc. rewrite (H (r * N + c)%nat) by nia.
  reflexivity.
Qed.

Lemma ampd_peaks_window (data : ndarray) (N : nat) (g g' : rng) :
  shape (squeeze data) = [N] -> (3 <= N)%nat ->
  length (detrend (flat data)) = N ->
  agree_upto (rows_of N * N) g g' ->
  exists p,
    ampd_peaks detrend data g = (inr p, advance g (rows_of N * N)) /\
    ampd_peaks detrend data g' = (inr p, advance g' (rows_of N * N)).
Proof.
  intros Hs HN Hl Hag.
  destruct (@ampd_peaks_eq detrend data N g Hs HN Hl) as (k & Hk & _ & E).
  destruct (@ampd_peaks_eq detrend data N g' Hs HN Hl) as (k' & Hk' & _ & E').
  assert (Hlms : mat_init (rows_of N) N (lms_entry (detrend (flat data)) g N)
                 = mat_init (rows_of N) N
                            (lms_entry (detrend (flat data)) g' N)).
  { apply mat_init_ext. intros r c Hr Hc. now apply lms_entry_window. }
  rewrite <- Hlms in Hk', E'. rewrite Hk in Hk'. injection Hk' as <-.
  eexists. split; [exact E|exact E'].
Qed.

(** C5 (amended): on two reduced signals of one length [N >= 3] a call
    draws [2 * (ceil(N/2) - 1) * N] values from the process-wide
    generator, one for each entry of the two scalograms, and leaves the
    generator advanced by that many; its output is determined by the
    arguments and by those values, so that it is the same from two
    generator states that hand out the same [2 * (ceil(N/2) - 1) * N]
    next values, whatever they hand out afterwards.  An input that the
    validation refuses draws nothing. *)
Theorem C5_a_call_reads_the_draws_of_its_two_scalograms
        (a : ndarray) (b : option ndarray) (t : option (list Q))
        (a' b' : ndarray) (N : nat) (g g' : rng) :
  length (detrend (flat a')) = length (flat a') ->
  length (detrend (flat b')) = length (flat b') ->
  _validate_vectors fit_transform a b = inr (a', b') ->
  valid_signals a' b' t N ->
  agree_upto (draws_of_call N) g g' ->
  fst (relative_phase detrend fit_transform a b t g) =
  fst (relative_phase detrend fit_transform a b t g') /\
  snd (relative_phase detrend fit_transform a b t g)
  = advance g (draws_of_call N) /\
  snd (relative_phase detrend fit_transform a b t g')
  = advance g' (draws_of_call N) /\
  forall x y e,
    _validate_vectors fit_transform x y = inl e ->
    relative_phase detrend fit_transform x y t g = (inl e, g).
Proof.
  intros Hda Hdb Hv (Hsa & Hsb & Hla & Hlb & HN & Ht) Hag.
  rewrite Hla in Hda. rewrite Hlb in Hdb.
  rewrite draws_of_call_rows in * by lia.
  set (k := (rows_of N * N)%nat) in *.
  pose proof (@squeeze_signal a' N Hsa HN) as Hqa.
  pose proof (@squeeze_signal b' N Hsb HN) as Hqb.
  destruct (@ampd_peaks_window a' N g g' Hqa HN Hda
              (@agree_upto_le (k + k) k g g' ltac:(lia) Hag))
    as (pa & Ea & Ea').
  destruct (@ampd_peaks_window b' N (advance g k) (advance g' k) Hqb HN Hdb
              (@agree_upto_advance k k g g' Hag))
    as (pb & Eb & Eb').
  fold k in Ea, Ea', Eb, Eb'.
  set (tl := match t with Some t' => t' | None => arange N end).
  assert (Htb : time_base t a' tl).
  { unfold time_base, tl. destruct t as [t'|]; [reflexivity|].
    exists N. split; [|reflexivity]. unfold shape_at. now rewrite Hsa. }
  rewrite (@relative_phase_after_detection detrend fit_transform
             a b t a' b' tl pa pb g _ _ Hv Htb Ea Eb).
  rewrite (@relative_phase_after_detection detrend fit_transform
             a b t a' b' tl pa pb g' _ _ Hv Htb Ea' Eb').
  cbn [fst snd]. rewrite !advance_advance.
  split; [reflexivity|]. split; [reflexivity|]. split; [reflexivity|].
  intros x y e Hx. unfold relative_phase, bind, lift. now rewrite Hx.
Qed.

End Generator.

(** ** What the scalogram does hold *)

Lemma round_half_even_bounds (q : Q) :
  (Qfloor q <= round_half_even q <= Qfloor q + 1)%Z.
Proof.
  unfold round_half_even.
  destruct (Qcompare (q - inject_Z (Qfloor q)) (1 # 2)); [|lia|lia].
  destruct (Z.even (Qfloor q)); lia.
Qed.

(** A sum of [1, 2) is stored as a value of [1, 2]: rounding can reach
    two, which the exact sum cannot. *)
Lemma f64_near_one_bounds (q : Q) :
  1 <= q -> q < 2 -> 1 <= f64_near_one q /\ f64_near_one q <= 2.
Proof.
  intros H1 H2. unfold f64_near_one.
  set (s := (2 ^ 52)%Z).
  assert (Hs : 0 < inject_Z s) by (unfold s; reflexivity).
  clearbody s.
  pose proof (round_half_even_bounds (q * inject_Z s)) as [Hlo Hhi].
  assert (Hfl : (s <= Qfloor (q * inject_Z s))%Z).
  { rewrite <- (Qfloor_Z s) at 1. apply Qfloor_resp_le.
    generalize dependent (inject_Z s). intros S HS _ _. nra. }
  assert (Hfh : (Qfloor (q * inject_Z s) < 2 * s)%Z).
  { rewrite Zlt_Qlt. eapply Qle_lt_trans; [apply Qfloor_le|].
    rewrite inject_Z_mult. change (inject_Z 2) with 2.
    generalize dependent (inject_Z s). intros S HS _ _ _. nra. }
  set (z := round_half_even (q * inject_Z s)) in *.
  assert (Hz1 : inject_Z s <= inject_Z z) by (rewrite <- Zle_Qle; lia).
  assert (Hz2 : inject_Z z <= 2 * inject_Z s).
  { change 2 with (inject_Z 2). rewrite <- inject_Z_mult, <- Zle_Qle. lia. }
  split.
  - apply Qle_shift_div_l; [exact Hs|]. lra.
  - apply Qle_shift_div_r; [exact Hs|]. lra.
Qed.

(** A value that binary64 holds in [1, 2] is stored as it is. *)
Lemma f64_near_one_exact (z : Z) :
  f64_near_one (inject_Z z / inject_Z (2 ^ 52)) == inject_Z z / inject_Z (2 ^ 52).
Proof.
  unfold f64_near_one.
  assert (E : inject_Z z / inject_Z (2 ^ 52) * inject_Z (2 ^ 52) == inject_Z z).
  { field. discriminate. }
  assert (R : round_half_even (inject_Z z / inject_Z (2 ^ 52) * inject_Z (2 ^ 52))
              = z).
  { unfold round_half_even. rewrite (Qfloor_comp _ _ E), Qfloor_Z.
    assert (C : inject_Z z / inject_Z (2 ^ 52) * inject_Z (2 ^ 52) - inject_Z z
                == 0) by (rewrite E; ring).
    rewrite (Qcompare_comp _ _ C (1 # 2) (1 # 2) (Qeq_refl _)). reflexivity. }
  rewrite R. reflexivity.
Qed.

(** An entry is either zero or a baseline value of [1, 2]. *)
Lemma lms_entry_spec (d : list Q) (g : rng) (N r c : nat) :
  uniform01 g ->
  (lms_entry d g N r c == 0 <-> zeroed d N r c = true) /\
  (zeroed d N r c = false ->
   1 <= lms_entry d g N r c /\ lms_entry d g N r c <= 2).
Proof.
  intros Hu. unfold lms_entry, baseline.
  destruct (Hu (cursor g + r * N + c)%nat) as [H0 H1].
  destruct (@f64_near_one_bounds (draws g (cursor g + r * N + c) + 1))
    as [Hlo Hhi]; [lra|lra|].
  destruct (zeroed d N r c).
  - split; [split; reflexivity|discriminate].
  - split; [|intros _; split; assumption].
    split; [intros H; lra|discriminate].
Qed.

(** Strictly inside the signal the test is the one of the two neighbours
    at the distance of the scale. *)
Lemma zeroed_inside (d : list Q) (N r c : nat) :
  (c + (r + 1) < N)%nat ->
  zeroed d N r c = true <->
  (r + 2 <= c)%nat /\
  nth (c + (r + 1)) d 0 < nth c d 0 /\
  nth (c - (r + 1)) d 0 < nth c d 0.
Proof.
  intros Hin. unfold zeroed.
  rewrite Nat.mod_small by assumption.
  rewrite !andb_true_iff, !Qgtb_true, !Nat.leb_le. intuition lia.
Qed.

(** At the last checked column, [c + k = N], the forward neighbour is the
    first sample. *)
Lemma zeroed_at_edge (d : list Q) (N r c : nat) :
  (c + (r + 1) = N)%nat ->
  zeroed d N r c = true <->
  (r + 2 <= c)%nat /\
  nth 0 d 0 < nth c d 0 /\
  nth (c - (r + 1)) d 0 < nth c d 0.
Proof.
  intros Hedge. unfold zeroed.
  rewrite Hedge, Nat.Div0.mod_same.
  rewrite !andb_true_iff, !Qgtb_true, !Nat.leb_le. intuition lia.
Qed.

Lemma zeroed_outside (d : list Q) (N r c : nat) :
  (c < r + 2)%nat \/ (N < c + (r + 1))%nat -> zeroed d N r c = false.
Proof.
  intros H. unfold zeroed.
  destruct (Nat.leb_spec (r + 2) c), (Nat.leb_spec (c + (r + 1)) N);
    try reflexivity; lia.
Qed.

(** The validation of the detector refuses exactly the arrays that keep
    more than one axis once squeezed. *)
Lemma validate_vector_refuses_iff (x : ndarray) :
  is_ValueError (_validate_vector x) = true <-> (1 < ndim (squeeze x))%nat.
Proof.
  unfold _validate_vector, ndim.
  destruct (Nat.ltb_spec 1 (length (shape (squeeze x)))); cbn [is_ValueError].
  - split; auto.
  - split; [discriminate|lia].
Qed.

(** ** The sample generator *)

Lemma lcg_value_range (seed z : Z) :
  0 <= lcg_value seed z /\ lcg_value seed z < 1.
Proof.
  unfold lcg_value, Qle, Qlt. cbn [Qnum Qden].
  pose proof (Z.mod_pos_bound
                ((seed + 1) * (z * 7919 + z * z * 104729 + 12345))
                1000003 ltac:(lia)).
  lia.
Qed.

Lemma lcg_uniform (seed : Z) : uniform01 (lcg seed).
Proof.
  intros i. unfold lcg. cbn [draws].
  destruct (nth_in_or_default
              i (map (fun i => lcg_value seed (Z.of_nat i)) (seq 0 320)) 0)
    as [Hin | ->].
  - apply in_map_iff in Hin. destruct Hin as (j & <- & _).
    apply lcg_value_range.
  - split; lra.
Qed.

(** ** The detector and the generator *)

(** On five samples whose two scales both find the one peak at index 3,
    the draws decide which row sum is the least: from one generator state
    the first scale wins and no peak is returned, from another the second
    scale wins and the peak is returned. *)
Lemma ampd_peaks_depends_on_the_draws :
  fst (ampd_peaks lstsq_detrend (vec sig_tie) (lcg 0)) = inr [] /\
  fst (ampd_peaks lstsq_detrend (vec sig_tie) (lcg 1)) = inr [3%nat].
Proof. split; vm_compute; reflexivity. Qed.

(** The two periodic signals, from the generator state [lcg 12]: peaks
    3, 7, 11 and 5, 9, two cycles, each of phase
    [2 * pi * (3 - 5) / 4]. *)
Lemma sample_first_call :
  fst (relative_phase lstsq_detrend first_channel
                      (vec sig_a) (Some (vec sig_b)) None (lcg 12))
  = inr ([3; 7], [5; 9], [phase_of 3 5 4; phase_of 7 9 4]).
Proof. vm_compute. reflexivity. Qed.

(** The same call again, from the state the first call left: the first
    scale of the first signal now has the least row sum, and no cycle is
    returned. *)
Lemma sample_second_call :
  fst (relative_phase
         lstsq_detrend first_channel (vec sig_a) (Some (vec sig_b)) None
         (snd (relative_phase lstsq_detrend first_channel
                              (vec sig_a) (Some (vec sig_b)) None (lcg 12))))
  = inr ([], [], []).
Proof. vm_compute. reflexivity. Qed.

(** ** The claims on sample inputs *)

Lemma length_lstsq_detrend (xs : list Q) :
  length (lstsq_detrend xs) = length xs.
Proof.
  unfold lstsq_detrend. rewrite length_zip_with, length_arange. lia.
Qed.

Lemma sample_signals_valid :
  valid_signals (vec sig_a) (vec sig_b) None 13.
Proof.
  unfold valid_signals. repeat split; try reflexivity.
  - cbn. lia.
  - discriminate.
Qed.

Lemma sample_detection_a :
  ampd_peaks lstsq_detrend (vec sig_a) (lcg 12)
  = (inr [3; 7; 11]%nat, advance (lcg 12) 78).
Proof. vm_compute; reflexivity. Qed.

Lemma sample_detection_b :
  ampd_peaks lstsq_detrend (vec sig_b) (advance (lcg 12) 78)
  = (inr [5; 9]%nat, advance (advance (lcg 12) 78) 78).
Proof. vm_compute; reflexivity. Qed.


Lemma C3_witness :
  valid_signals (vec sig_a) (vec sig_b) None 13 /\
  ampd_peaks lstsq_detrend (vec sig_a) (lcg 12)
  = (inr [3; 7; 11]%nat, advance (lcg 12) 78) /\
  ampd_peaks lstsq_detrend (vec sig_b) (advance (lcg 12) 78)
  = (inr [5; 9]%nat, advance (advance (lcg 12) 78) 78) /\
  exists x0 x1,
    relative_phase lstsq_detrend first_channel
                   (vec sig_a) (Some (vec sig_b)) None (lcg 12)
    = (inr ([3; 7], [5; 9], [x0; x1]), advance (advance (lcg 12) 78) 78) /\
    length [x0; x1] = Nat.min (Nat.min 3 2) (3 - 1) /\
    x0 = 2 * np_pi * inject_Z (3 - 5) / inject_Z (7 - 3) /\
    x1 = 2 * np_pi * inject_Z (7 - 9) / inject_Z (11 - 7) /\
    x0 == - np_pi /\ x1 == - np_pi.
Proof.
  assert (Da : ampd_peaks lstsq_detrend (vec sig_a) (lcg 12)
               = (inr [3; 7; 11]%nat, advance (lcg 12) 78))
    by (vm_compute; reflexivity).
  assert (Db : ampd_peaks lstsq_detrend (vec sig_b) (advance (lcg 12) 78)
               = (inr [5; 9]%nat, advance (advance (lcg 12) 78) 78))
    by (vm_compute; reflexivity).
  assert (Hc : relative_phase lstsq_detrend first_channel
                              (vec sig_a) (Some (vec sig_b)) None (lcg 12)
               = (inr ([3; 7], [5; 9], [phase_of 3 5 4; phase_of 7 9 4]),
                  advance (advance (lcg 12) 78) 78))
    by (vm_compute; reflexivity).
  split; [exact sample_signals_valid|]. split; [exact Da|]. split; [exact Db|].
  destruct (@C3_relative_phase_formula
              lstsq_detrend first_channel
              (vec sig_a) (Some (vec sig_b)) None (vec sig_a) (vec sig_b)
              13 (lcg 12))
    as (pa & pb & tl & g1 & g2 & t_a & t_b & rel
        & Ea & Eb & Htl & Hrun & Hta & Htb & Hlen & Hrel).
  - vm_compute; reflexivity.
  - vm_compute; reflexivity.
  - reflexivity.
  - exact sample_signals_valid.
  - rewrite Da in Ea. injection Ea as <- <-.
    rewrite Db in Eb. injection Eb as <- <-.
    rewrite Hc in Hrun. injection Hrun as <- <- <-.
    cbn [length] in Hlen, Hrel.
    exists (phase_of 3 5 4), (phase_of 7 9 4).
    split; [exact Hc|]. split; [exact Hlen|].
    split; [exact (proj2 (Hrel 0%nat ltac:(cbn; lia)))|].
    split; [exact (proj2 (Hrel 1%nat ltac:(cbn; lia)))|].
    split; vm_compute; reflexivity.
Defined.

Lemma C4_witness :
  valid_signals (vec sig_a) (vec sig_b) None 13 /\
  exists t_a t_b rel g2,
    relative_phase lstsq_detrend first_channel
                   (vec sig_a) (Some (vec sig_b)) None (lcg 12)
    = (inr (t_a, t_b, rel), g2) /\
    length t_a = length rel /\ length t_b = length rel.
Proof.
  split; [exact sample_signals_valid|].
  destruct (@C4_three_vectors_of_one_length
              lstsq_detrend first_channel
              (vec sig_a) (Some (vec sig_b)) None (vec sig_a) (vec sig_b)
              13 (lcg 12))
    as (pa & pb & g1 & g2 & t_a & t_b & rel & _ & _ & Hrun & Ha & Hb & _).
  - vm_compute; reflexivity.
  - vm_compute; reflexivity.
  - vm_compute; reflexivity.
  - exact sample_signals_valid.
  - exists t_a, t_b, rel, g2. auto.
Defined.

(** Where the first signal has no peak the three vectors are empty, and
    their length is not the least of 0, 0 and -1. *)
Lemma C4_counterexample :
  ~ C4_as_stated lstsq_detrend first_channel
      (vec sig_short) (Some (vec sig_short)) None (lcg 0).
Proof.
  intros H.
  specialize (H (vec sig_short) (vec sig_short) [] []
                (advance (lcg 0) 3) (advance (advance (lcg 0) 3) 3)
                [] [] []).
  destruct H as (_ & _ & H); try (vm_compute; reflexivity).
  vm_compute in H. discriminate.
Qed.

Lemma C5_witness :
  draws_of_call 13 = 156%nat /\
  agree_upto (draws_of_call 13) (lcg 12) lcg_cut /\
  draws (lcg 12) 156 <> draws lcg_cut 156 /\
  relative_phase lstsq_detrend first_channel
                 (vec sig_a) (Some (vec sig_b)) None (lcg 12)
  = (inr ([3; 7], [5; 9], [phase_of 3 5 4; phase_of 7 9 4]),
     advance (lcg 12) 156) /\
  relative_phase lstsq_detrend first_channel
                 (vec sig_a) (Some (vec sig_b)) None lcg_cut
  = (inr ([3; 7], [5; 9], [phase_of 3 5 4; phase_of 7 9 4]),
     advance lcg_cut 156) /\
  relative_phase lstsq_detrend first_channel
                 tensor (Some (vec sig_b)) None (lcg 12)
  = (inl (ValueError "the estimator expects a two-dimensional array"),
     lcg 12).
Proof.
  assert (H : agree_upto (draws_of_call 13) (lcg 12) lcg_cut).
  { intros i Hi. change (draws_of_call 13) with 156%nat in Hi.
    unfold lcg_cut. cbn [draws cursor Nat.add].
    change (cursor (lcg 12)) with 0%nat. cbn [Nat.add].
    destruct (Nat.ltb_spec i 156); [reflexivity|lia]. }
  assert (Hc : relative_phase lstsq_detrend first_channel
                              (vec sig_a) (Some (vec sig_b)) None (lcg 12)
               = (inr ([3; 7], [5; 9], [phase_of 3 5 4; phase_of 7 9 4]),
                  advance (lcg 12) 156))
    by (vm_compute; reflexivity).
  destruct (@C5_a_call_reads_the_draws_of_its_two_scalograms
              lstsq_detrend first_channel
              (vec sig_a) (Some (vec sig_b)) None (vec sig_a) (vec sig_b)
              13 (lcg 12) lcg_cut)
    as (Hout & Hstate & Hstate' & Hrefused).
  - vm_compute; reflexivity.
  - vm_compute; reflexivity.
  - reflexivity.
  - exact sample_signals_valid.
  - exact H.
  - split; [reflexivity|]. split; [exact H|].
    split; [vm_compute; discriminate|].
    split; [exact Hc|].
    rewrite Hc in Hout. cbn [fst] in Hout.
    change (draws_of_call 13) with 156%nat in Hstate'.
    split.
    + rewrite (surjective_pairing (relative_phase _ _ _ _ _ lcg_cut)).
      now rewrite <- Hout, Hstate'.
    + apply Hrefused. reflexivity.
Defined.

(** Two successive calls on one pair of signals: the first returns two
    cycles, the second none. *)
Lemma C5_counterexample :
  ~ C5_as_stated lstsq_detrend first_channel
      (vec sig_a) (Some (vec sig_b)) None.
Proof.
  intros [H _]. specialize (H (lcg 12)).
  vm_compute in H. discriminate.
Qed.


Lemma first_channel_contract : pca_contract first_channel.
Proof.
  split.
  - intros x H. unfold first_channel, ndim in *.
    destruct (shape x) as [|n [|m [|k s]]]; cbn in H; try lia. eauto.
  - intros x n m Hs _ _. unfold first_channel, column. rewrite Hs.
    eexists. split; [reflexivity|]. cbn [shape flat].
    now rewrite length_map, length_seq.
Qed.

Lemma sample_table_regular : regular_input (column_stack sig_a sig_b) None.
Proof. intros n [= <-]. cbn. lia. Qed.

Lemma sample_tensor_regular : regular_input tensor (Some (vec sig_b)).
Proof.
  split.
  - left. cbn. lia.
  - right. left. exists 13%nat. repeat split. lia.
Qed.

Lemma C7_witness :
  pca_contract first_channel /\
  regular_input tensor (Some (vec sig_b)) /\
  regular_input (column_stack sig_a sig_b) None /\
  relative_phase lstsq_detrend first_channel
                 tensor (Some (vec sig_b)) None (lcg 12)
  = (inl (ValueError "the estimator expects a two-dimensional array"),
     lcg 12) /\
  is_ValueError
    (fst (relative_phase lstsq_detrend first_channel
                         tensor (Some (vec sig_b)) None (lcg 12))) = true /\
  snd (relative_phase lstsq_detrend first_channel
                      tensor (Some (vec sig_b)) None (lcg 12)) = lcg 12 /\
  is_ValueError
    (fst (relative_phase lstsq_detrend first_channel
                         (column_stack sig_a sig_b) None None (lcg 12)))
  <> true /\
  fst (relative_phase lstsq_detrend first_channel
                      (column_stack sig_a sig_b) None None (lcg 12))
  = inr ([3; 7], [5; 9], [phase_of 3 5 4; phase_of 7 9 4]).
Proof.
  pose proof (@C7_refused_inputs lstsq_detrend first_channel
                tensor (Some (vec sig_b)) None (lcg 12)
                length_lstsq_detrend first_channel_contract
                sample_tensor_regular) as [Hiff Hstate].
  pose proof (@C7_refused_inputs lstsq_detrend first_channel
                (column_stack sig_a sig_b) None None (lcg 12)
                length_lstsq_detrend first_channel_contract
                sample_table_regular) as [Hiff' _].
  assert (Hraise : is_ValueError
                     (fst (relative_phase lstsq_detrend first_channel
                             tensor (Some (vec sig_b)) None (lcg 12))) = true).
  { apply Hiff. right. exists (vec sig_b). split; [reflexivity|].
    left. cbn. lia. }
  split; [exact first_channel_contract|].
  split; [exact sample_tensor_regular|].
  split; [exact sample_table_regular|].
  split; [reflexivity|].
  split; [exact Hraise|].
  split; [exact (Hstate Hraise)|].
  split; [|vm_compute; reflexivity].
  intros H. apply Hiff' in H.
  destruct H as [[_ Hbad]|(b0 & Hb0 & _)]; [|discriminate].
  apply Hbad. split; reflexivity.
Defined.

(** A three-dimensional array with two columns and no second signal is
    not refused: its leading axis of length one is squeezed away. *)
Lemma C7_counterexample :
  ~ C7_as_stated lstsq_detrend first_channel cube None None (lcg 0).
Proof.
  intros [_ H].
  assert (Hraise : is_ValueError
                     (fst (relative_phase lstsq_detrend first_channel
                                          cube None None (lcg 0))) = true).
  { apply H. left. split; [reflexivity|]. intros [Hn _]. discriminate. }
  vm_compute in Hraise. discriminate.
Qed.

Lemma C9_witness :
  ((length (@nil nat) < 2)%nat \/ length (@nil nat) = 0%nat) /\
  relative_phase lstsq_detrend first_channel
                 (vec sig_short) (Some (vec sig_short)) None (lcg 0)
  = (inr ([], [], []), advance (advance (lcg 0) 3) 3).
Proof.
  assert (H : (length (@nil nat) < 2)%nat \/ length (@nil nat) = 0%nat)
    by (left; cbn; lia).
  split; [exact H|].
  apply (@C9_too_few_peaks_gives_three_empty_vectors
           lstsq_detrend first_channel
           (vec sig_short) (Some (vec sig_short)) None
           (vec sig_short) (vec sig_short) [] []
           (lcg 0) (advance (lcg 0) 3) (advance (advance (lcg 0) 3) 3)).
  - vm_compute; reflexivity.
  - vm_compute; reflexivity.
  - vm_compute; reflexivity.
  - exact H.
Defined.

Lemma C10_witness :
  argmin (sum_axis1
            (mat_init 2 5 (lms_entry (lstsq_detrend sig_tie) (lcg 0) 5)))
  = inr 0%nat /\
  ampd_peaks lstsq_detrend (vec sig_tie) (lcg 0)
  = (inr [], advance (lcg 0) 10).
Proof.
  assert (H1 : _local_maxima_scalogram lstsq_detrend (vec sig_tie) (lcg 0) =
               (inr (mat_init 2 5 (lms_entry (lstsq_detrend sig_tie) (lcg 0) 5)),
                advance (lcg 0) 10))
    by (vm_compute; reflexivity).
  assert (H2 : argmin (sum_axis1
                  (mat_init 2 5 (lms_entry (lstsq_detrend sig_tie) (lcg 0) 5)))
               = inr 0%nat)
    by (vm_compute; reflexivity).
  split; [exact H2|].
  exact (proj2 (proj2 (proj2
           (@C10_first_scale_yields_no_peak lstsq_detrend (vec sig_tie)
              (lcg 0) (advance (lcg 0) 10) _ H1 H2)))).
Defined.


(** ** More on validation *)

(** X1: [_validate_vector] refuses exactly the arrays that keep more than one
    axis once squeezed; an array it accepts is returned squeezed, with at
    most one axis and none of length one, and is accepted unchanged when
    validated again. *)
Theorem validate_vector_spec (x : ndarray) :
  (is_ValueError (_validate_vector x) = true <-> (1 < ndim (squeeze x))%nat)
  /\
  forall y, _validate_vector x = inr y ->
            y = squeeze x /\ (ndim y <= 1)%nat /\ ~ In 1%nat (shape y) /\
            flat y = flat x /\ _validate_vector y = inr y.
Proof.
  split; [apply validate_vector_refuses_iff|].
  intros y. unfold _validate_vector, ndim.
  destruct (Nat.ltb_spec 1 (length (shape (squeeze x)))) as [|Hle];
    [discriminate|].
  intros [= <-]. rewrite squeeze_idem.
  destruct (Nat.ltb_spec 1 (length (shape (squeeze x)))); [lia|].
  repeat split; try assumption. apply squeeze_no_unit_axis.
Qed.

Section MoreValidation.

Variable fit_transform : ndarray -> exn + ndarray.

(** X2: with the second signal absent, [_validate_vectors] raises exactly
    when the array, once squeezed, is not two-dimensional with two
    columns; otherwise it returns the two columns, one-dimensional, and
    the projection plays no part. *)
Theorem validate_vectors_one_argument (a : ndarray) :
  (is_ValueError (_validate_vectors fit_transform a None) = true
   <-> ~ two_columns (squeeze a)) /\
  (forall n, shape (squeeze a) = [n; 2%nat] ->
     _validate_vectors fit_transform a None =
     inr (mk_ndarray [n] (map (fun i => nth (i * 2 + 0) (flat a) 0) (seq 0 n)),
          mk_ndarray [n] (map (fun i => nth (i * 2 + 1) (flat a) 0) (seq 0 n)))).
Proof.
  split.
  - split.
    + intros H Htwo.
      destruct (_validate_vectors fit_transform a None) as [e|p] eqn:E;
        [|discriminate].
      exact (@validate_vectors_one_raise_inv fit_transform a e E Htwo).
    + intros Hbad. now rewrite (validate_vectors_raise fit_transform Hbad).
  - intros n Hs. rewrite (@validate_vectors_columns fit_transform a n Hs).
    unfold column. rewrite Hs. reflexivity.
Qed.

(** X3: an array returned by [_validate_vectors] is squeezed, so the
    detector's own validation returns it unchanged when it has at most
    one axis and refuses it otherwise. *)
Theorem validations_compose
        (a : ndarray) (b : option ndarray) (a' b' x : ndarray) :
  _validate_vectors fit_transform a b = inr (a', b') ->
  x = a' \/ x = b' ->
  squeeze x = x /\
  _validate_vector x =
  if (1 <? ndim x)%nat
  then inl (ValueError "input cannot be cast to 1D vector")
  else inr x.
Proof.
  intros Hv Hx.
  destruct (validate_vectors_inv _ _ _ Hv) as (Ha & Hb & _).
  assert (Hs : squeeze x = x) by (destruct Hx; subst; assumption).
  split; [exact Hs|].
  unfold _validate_vector. rewrite Hs. reflexivity.
Qed.

End MoreValidation.

Lemma validations_compose_witness :
  _validate_vectors first_channel (column_stack sig_a sig_b) None
  = inr (vec sig_a, vec sig_b) /\
  _validate_vector (vec sig_a) = inr (vec sig_a).
Proof.
  assert (H : _validate_vectors first_channel (column_stack sig_a sig_b) None
              = inr (vec sig_a, vec sig_b)) by (vm_compute; reflexivity).
  split; [exact H|].
  exact (proj2 (@validations_compose first_channel _ _ _ _ (vec sig_a)
                  H (or_introl eq_refl))).
Defined.

Lemma validate_vectors_one_argument_witness :
  shape (squeeze (column_stack sig_a sig_b)) = [13; 2]%nat /\
  _validate_vectors first_channel (column_stack sig_a sig_b) None
  = inr (vec sig_a, vec sig_b).
Proof.
  assert (H : shape (squeeze (column_stack sig_a sig_b)) = [13; 2]%nat)
    by reflexivity.
  split; [exact H|].
  rewrite (proj2 (validate_vectors_one_argument
                    first_channel (column_stack sig_a sig_b)) 13%nat H).
  vm_compute. reflexivity.
Defined.

(** ** More on the scalogram *)

Lemma entry_mat_init (L N : nat) (f : nat -> nat -> Q) (r c : nat) :
  (r < L)%nat -> (c < N)%nat -> entry (mat_init L N f) r c = f r c.
Proof.
  intros Hr Hc. unfold entry.
  rewrite nth_mat_init by assumption. now rewrite nth_map_seq.
Qed.

(** X4: on a one-dimensional input of [N >= 2] samples the scalogram is
    returned: [ceil(N/2) - 1] rows of [N] entries, each entry either 0 or
    a value of [1, 2], bounds included; the generator has moved on by one
    draw per entry. *)
Theorem scalogram_shape_and_values
        (detrend : list Q -> list Q) (data : ndarray) (N : nat) (g : rng) :
  shape (squeeze data) = [N] -> (2 <= N)%nat ->
  length (detrend (flat data)) = N ->
  uniform01 g ->
  exists lms,
    _local_maxima_scalogram detrend data g
    = (inr lms, advance g (length lms * N)) /\
    Z.of_nat (length lms) = ((Z.of_nat N + 1) / 2 - 1)%Z /\
    forall row, In row lms ->
      length row = N /\
      forall x, In x row -> x = 0 \/ (1 <= x /\ x <= 2).
Proof.
  intros data_1d HN detrend_length draws_uniform.
  exists (mat_init (rows_of N) N (lms_entry (detrend (flat data)) g N)).
  rewrite length_mat_init.
  split; [apply scalogram_eq; [assumption|lia|assumption]|].
  split; [apply rows_of_ceil; lia|].
  intros row Hrow. unfold mat_init in Hrow. apply in_map_iff in Hrow.
  destruct Hrow as (r & <- & _).
  split; [now rewrite length_map, length_seq|].
  intros x Hx. apply in_map_iff in Hx. destruct Hx as (c & <- & _).
  destruct (@lms_entry_spec (detrend (flat data)) g N r c draws_uniform)
    as [_ Hbase].
  unfold lms_entry in *.
  destruct (zeroed (detrend (flat data)) N r c); [left; reflexivity|].
  right. apply Hbase. reflexivity.
Qed.

Section ScalogramEntries.

Variable detrend : list Q -> list Q.
Variable data : ndarray.
Variable N : nat.
Variable g : rng.

Hypothesis data_1d : shape (squeeze data) = [N].
Hypothesis data_nonempty : (1 <= N)%nat.
Hypothesis detrend_length : length (detrend (flat data)) = N.
Hypothesis draws_uniform : uniform01 g.

Variable lms : matrix.
Variable g' : rng.
Hypothesis run : _local_maxima_scalogram detrend data g = (inr lms, g').

Variable r c : nat.
Hypothesis row_in : (r < length lms)%nat.
Hypothesis col_in : (c < N)%nat.

Lemma lms_is_entries :
  lms = mat_init (rows_of N) N (lms_entry (detrend (flat data)) g N).
Proof.
  pose proof (@scalogram_eq detrend data N g data_1d data_nonempty
                detrend_length) as E.
  rewrite run in E. now injection E.
Qed.

Lemma entry_is_lms_entry :
  entry lms r c = lms_entry (detrend (flat data)) g N r c.
Proof.
  pose proof row_in as Hr. rewrite lms_is_entries in Hr |- *.
  rewrite length_mat_init in Hr. now apply entry_mat_init.
Qed.

(** X5: at scale [k = r + 1], a column [c] with [k + 1 <= c] and
    [c + k < N] is set to zero exactly when the sample is strictly
    greater than its two neighbours at distance [k]. *)
Theorem scalogram_inner_column :
  (r + 1 + 1 <= c)%nat -> (c + (r + 1) < N)%nat ->
  (entry lms r c == 0 <->
   nth (c - (r + 1)) (detrend (flat data)) 0 < nth c (detrend (flat data)) 0
   /\ nth (c + (r + 1)) (detrend (flat data)) 0
      < nth c (detrend (flat data)) 0).
Proof.
  intros Hlo Hhi. rewrite entry_is_lms_entry.
  rewrite (proj1 (@lms_entry_spec (detrend (flat data)) g N r c
                    draws_uniform)).
  rewrite (@zeroed_inside (detrend (flat data)) N r c Hhi). intuition lia.
Qed.

(** X6: the columns [c <= k] and the columns with [c + k > N] are never
    tested at scale [k]: they keep their baseline value, the stored sum
    of the sample drawn for them and of one, a value of [1, 2], bounds
    included. *)
Theorem scalogram_excluded_column :
  (c < r + 1 + 1)%nat \/ (N < c + (r + 1))%nat ->
  entry lms r c = baseline g N r c /\
  1 <= entry lms r c /\ entry lms r c <= 2.
Proof.
  intros Hout. rewrite entry_is_lms_entry.
  assert (Hz : zeroed (detrend (flat data)) N r c = false)
    by (apply zeroed_outside; lia).
  split; [unfold lms_entry; now rewrite Hz|].
  now apply lms_entry_spec.
Qed.

(** X7: the last column tested at scale [k], [c = N - k], has no forward
    neighbour at distance [k]: it is set to zero exactly when the sample
    is strictly greater than its backward neighbour and than the first
    sample of the signal. *)
Theorem scalogram_last_tested_column :
  (r + 1 + 1 <= c)%nat -> (c + (r + 1) = N)%nat ->
  (entry lms r c == 0 <->
   nth (c - (r + 1)) (detrend (flat data)) 0 < nth c (detrend (flat data)) 0
   /\ nth 0 (detrend (flat data)) 0 < nth c (detrend (flat data)) 0).
Proof.
  intros Hlo Hedge. rewrite entry_is_lms_entry.
  rewrite (proj1 (@lms_entry_spec (detrend (flat data)) g N r c
                    draws_uniform)).
  rewrite (@zeroed_at_edge (detrend (flat data)) N r c Hedge). intuition lia.
Qed.

End ScalogramEntries.

Lemma sample_scalogram_run :
  _local_maxima_scalogram lstsq_detrend (vec sig_a) (lcg 12)
  = (inr sample_lms, advance (lcg 12) (rows_of 13 * 13)).
Proof.
  apply scalogram_eq; [reflexivity|lia|vm_compute; reflexivity].
Qed.

Lemma scalogram_shape_and_values_witness :
  shape (squeeze (vec sig_a)) = [13%nat] /\ (2 <= 13)%nat /\
  length (lstsq_detrend (flat (vec sig_a))) = 13%nat /\
  uniform01 (lcg 12) /\
  _local_maxima_scalogram lstsq_detrend (vec sig_a) (lcg 12)
  = (inr sample_lms, advance (lcg 12) 78) /\
  length sample_lms = 6%nat /\
  forall row, In row sample_lms ->
    length row = 13%nat /\
    forall x, In x row -> x = 0 \/ (1 <= x /\ x <= 2).
Proof.
  assert (H1 : shape (squeeze (vec sig_a)) = [13%nat]) by reflexivity.
  assert (H2 : (2 <= 13)%nat) by lia.
  assert (H3 : length (lstsq_detrend (flat (vec sig_a))) = 13%nat)
    by (vm_compute; reflexivity).
  split; [exact H1|]. split; [exact H2|]. split; [exact H3|].
  split; [apply lcg_uniform|].
  destruct (@scalogram_shape_and_values
              lstsq_detrend (vec sig_a) 13 (lcg 12) H1 H2 H3 (lcg_uniform 12))
    as (lms & Hrun & Hrows & Hvalues).
  assert (Hc : _local_maxima_scalogram lstsq_detrend (vec sig_a) (lcg 12)
               = (inr sample_lms, advance (lcg 12) 78))
    by (vm_compute; reflexivity).
  rewrite Hc in Hrun. injection Hrun as <- _.
  split; [exact Hc|].
  split; [|exact Hvalues].
  change ((Z.of_nat 13 + 1) / 2 - 1)%Z with 6%Z in Hrows. lia.
Defined.

Lemma scalogram_inner_column_witness :
  (0 + 1 + 1 <= 3)%nat /\ (3 + (0 + 1) < 13)%nat /\
  (entry sample_lms 0 3 == 0 <->
   nth (3 - (0 + 1)) (lstsq_detrend sig_a) 0 < nth 3 (lstsq_detrend sig_a) 0
   /\ nth (3 + (0 + 1)) (lstsq_detrend sig_a) 0
      < nth 3 (lstsq_detrend sig_a) 0).
Proof.
  assert (H1 : (0 + 1 + 1 <= 3)%nat) by lia.
  assert (H2 : (3 + (0 + 1) < 13)%nat) by lia.
  split; [exact H1|]. split; [exact H2|].
  apply (@scalogram_inner_column
           lstsq_detrend (vec sig_a) 13 (lcg 12)
           eq_refl ltac:(lia) ltac:(vm_compute; reflexivity)
           (lcg_uniform 12) sample_lms _ sample_scalogram_run 0%nat 3%nat).
  - vm_compute; lia.
  - lia.
  - exact H1.
  - exact H2.
Defined.

Lemma scalogram_excluded_column_witness :
  ((1 < 0 + 1 + 1)%nat \/ (13 < 1 + (0 + 1))%nat) /\
  entry sample_lms 0 1 = f64_near_one (draws (lcg 12) 1 + 1) /\
  1 <= entry sample_lms 0 1 /\ entry sample_lms 0 1 <= 2.
Proof.
  assert (H : (1 < 0 + 1 + 1)%nat \/ (13 < 1 + (0 + 1))%nat) by (left; lia).
  assert (Hc : _local_maxima_scalogram lstsq_detrend (vec sig_a) (lcg 12)
               = (inr sample_lms, advance (lcg 12) 78))
    by (vm_compute; reflexivity).
  split; [exact H|].
  apply (@scalogram_excluded_column
           lstsq_detrend (vec sig_a) 13 (lcg 12)
           eq_refl ltac:(lia) ltac:(vm_compute; reflexivity)
           (lcg_uniform 12) sample_lms _ Hc 0%nat 1%nat).
  - vm_compute; lia.
  - lia.
  - exact H.
Defined.

Lemma scalogram_last_tested_column_witness :
  (0 + 1 + 1 <= 12)%nat /\ (12 + (0 + 1) = 13)%nat /\
  (entry sample_lms 0 12 == 0 <->
   nth (12 - (0 + 1)) (lstsq_detrend sig_a) 0
   < nth 12 (lstsq_detrend sig_a) 0
   /\ nth 0 (lstsq_detrend sig_a) 0 < nth 12 (lstsq_detrend sig_a) 0).
Proof.
  assert (H1 : (0 + 1 + 1 <= 12)%nat) by lia.
  assert (H2 : (12 + (0 + 1) = 13)%nat) by lia.
  split; [exact H1|]. split; [exact H2|].
  apply (@scalogram_last_tested_column
           lstsq_detrend (vec sig_a) 13 (lcg 12)
           eq_refl ltac:(lia) ltac:(vm_compute; reflexivity)
           (lcg_uniform 12) sample_lms _ sample_scalogram_run 0%nat 12%nat).
  - vm_compute; lia.
  - lia.
  - exact H1.
  - exact H2.
Defined.

(** ** More on the detector *)

Section MoreDetector.

Variable detrend : list Q -> list Q.

(** X8: a signal of three or four samples has one scale, so the restricted
    matrix has one row and no peak is ever returned. *)
Theorem ampd_peaks_single_scale (xs : list Q) (g : rng) :
  length xs = 3%nat \/ length xs = 4%nat ->
  length (detrend xs) = length xs ->
  ampd_peaks detrend (vec xs) g = (inr [], advance g (length xs)).
Proof.
  intros HN Hlen.
  assert (H3 : (3 <= length xs)%nat) by lia.
  assert (Hrows : rows_of (length xs) = 1%nat)
    by (destruct HN as [-> | ->]; reflexivity).
  assert (Hshape : shape (squeeze (vec xs)) = [length xs])
    by (rewrite squeeze_vec by lia; reflexivity).
  destruct (@ampd_peaks_eq detrend (vec xs) (length xs) g Hshape H3 Hlen)
    as (k & _ & [Hk _] & Hp).
  rewrite Hp, Hrows, Nat.mul_1_l. f_equal. f_equal.
  unfold sum_axis1 in Hk. rewrite length_map, length_mat_init, Hrows in Hk.
  assert (k = 0%nat) as -> by lia.
  unfold peaks_of. apply filter_none. intros i _.
  unfold mat_init. cbn [seq map Nat.add firstn mat_column].
  unfold std. now rewrite var_single.
Qed.

(** X10: a returned index whose column drew different baseline values in the
    first two rows is a strict local maximum of the detrended signal: it
    is at least 2, and its sample is strictly greater than the samples
    before and after it, the sample after the last one being the first
    one. *)
Theorem returned_peak_is_a_local_maximum
        (xs : list Q) (g g' : rng) (peaks : list nat) (i : nat) :
  (3 <= length xs)%nat ->
  length (detrend xs) = length xs ->
  uniform01 g ->
  ampd_peaks detrend (vec xs) g = (inr peaks, g') ->
  In i peaks ->
  ~ baseline g (length xs) 0 i == baseline g (length xs) 1 i ->
  (2 <= i < length xs)%nat /\
  nth (i - 1) (detrend xs) 0 < nth i (detrend xs) 0 /\
  nth ((i + 1) mod length xs) (detrend xs) 0 < nth i (detrend xs) 0.
Proof.
  intros HN Hlen Hu Hrun Hin Hdistinct.
  assert (Hshape : shape (squeeze (vec xs)) = [length xs])
    by (rewrite squeeze_vec by lia; reflexivity).
  destruct (@ampd_peaks_eq detrend (vec xs) (length xs) g Hshape HN Hlen)
    as (k & _ & [Hk _] & Hp).
  cbn [flat vec] in *. rewrite Hp in Hrun. injection Hrun as <- _.
  set (N := length xs) in *. set (d := detrend xs) in *.
  set (lms := mat_init (rows_of N) N (lms_entry d g N)) in *.
  unfold sum_axis1 in Hk. rewrite length_map in Hk.
  unfold lms in Hk at 1. rewrite length_mat_init in Hk.
  unfold peaks_of in Hin. apply filter_In in Hin. destruct Hin as [Hi Hstd].
  apply in_seq in Hi. apply std_zero_iff in Hstd.
  destruct Hstd as [Hrows Heq].
  unfold mat_column in Hrows. rewrite length_map, length_firstn in Hrows.
  unfold lms in Hrows at 1. rewrite length_mat_init in Hrows.
  assert (Hcol : forall r, (r < 2)%nat ->
             In (lms_entry d g N r i)
                (mat_column (firstn (k + 1) lms) i)).
  { intros r Hr. unfold mat_column.
    apply in_map_iff. exists (nth r lms []). split.
    - unfold lms. rewrite nth_mat_init by lia. now rewrite nth_map_seq by lia.
    - rewrite <- (firstn_skipn (k + 1) lms) at 1.
      rewrite app_nth1 by (rewrite length_firstn; unfold lms;
                           rewrite length_mat_init; lia).
      apply nth_In. rewrite length_firstn. unfold lms.
      rewrite length_mat_init. lia. }
  pose proof (Heq _ _ (Hcol 0%nat ltac:(lia)) (Hcol 1%nat ltac:(lia))) as E.
  destruct (@lms_entry_spec d g N 0 i Hu) as [H0z H0b].
  destruct (@lms_entry_spec d g N 1 i Hu) as [H1z H1b].
  assert (Hz : zeroed d N 0 i = true).
  { destruct (zeroed d N 0 i) eqn:Z0; [reflexivity|].
    destruct (zeroed d N 1 i) eqn:Z1.
    - destruct (H0b eq_refl) as [Hlo _].
      assert (E1 : lms_entry d g N 1 i == 0) by (apply H1z; reflexivity).
      rewrite E1 in E. lra.
    - exfalso. apply Hdistinct. unfold lms_entry in E.
      rewrite Z0, Z1 in E. exact E. }
  unfold zeroed in Hz. rewrite !andb_true_iff, !Qgtb_true, !Nat.leb_le in Hz.
  destruct Hz as (((Hlo & Hhi) & Hfwd) & Hbwd).
  cbn [Nat.add] in *. split; [lia|]. split; assumption.
Qed.

End MoreDetector.

Lemma ampd_peaks_single_scale_witness :
  (length sig_short = 3%nat \/ length sig_short = 4%nat) /\
  ampd_peaks lstsq_detrend (vec sig_short) (lcg 0)
  = (inr [], advance (lcg 0) (length sig_short)).
Proof.
  assert (H : length sig_short = 3%nat \/ length sig_short = 4%nat)
    by (left; reflexivity).
  split; [exact H|].
  apply (@ampd_peaks_single_scale lstsq_detrend sig_short (lcg 0) H).
  vm_compute; reflexivity.
Defined.

Lemma returned_peak_is_a_local_maximum_witness :
  In 3%nat [3; 7; 11]%nat /\
  (2 <= 3 < length sig_a)%nat /\
  nth (3 - 1) (lstsq_detrend sig_a) 0 < nth 3 (lstsq_detrend sig_a) 0 /\
  nth ((3 + 1) mod length sig_a) (lstsq_detrend sig_a) 0
  < nth 3 (lstsq_detrend sig_a) 0.
Proof.
  assert (H : In 3%nat [3; 7; 11]%nat) by (simpl; auto).
  split; [exact H|].
  apply (@returned_peak_is_a_local_maximum
           lstsq_detrend sig_a (lcg 12) (advance (lcg 12) 78)
           [3; 7; 11]%nat 3%nat).
  - cbn; lia.
  - vm_compute; reflexivity.
  - apply lcg_uniform.
  - vm_compute; reflexivity.
  - exact H.
  - intros E. vm_compute in E. discriminate.
Defined.

(** ** More on the phase estimator *)

Lemma take_forallb (t : list Q) (ix : list nat) :
  take t ix =
  if forallb (fun i => (i <? length t)%nat) ix
  then inr (map (fun i => nth i t 0) ix)
  else inl (IndexError "index out of bounds").
Proof.
  induction ix as [|i ix IH]; [reflexivity|].
  cbn [take forallb map].
  destruct (Nat.ltb_spec i (length t)) as [Hi|Hi].
  - destruct (nth_error t i) as [x|] eqn:E.
    + rewrite IH. cbn [andb].
      destruct (forallb _ ix); cbn [ebind]; [|reflexivity].
      now rewrite (nth_error_nth _ _ 0 E).
    + apply nth_error_None in E. lia.
  - apply nth_error_None in Hi. rewrite Hi. reflexivity.
Qed.


Lemma increasing_arange (n : nat) : increasing (arange n).
Proof.
  intros i j Hij Hj. rewrite length_arange in Hj.
  rewrite !nth_arange by lia. rewrite <- Zlt_Qlt. lia.
Qed.

Lemma nth_map_in {A : Type} (f : A -> Q) (l : list A) (k : nat) (d : A) :
  (k < length l)%nat -> nth k (map f l) 0 = f (nth k l d).
Proof.
  intros Hk. rewrite (nth_indep _ 0 (f d)) by now rewrite length_map.
  apply map_nth.
Qed.

Lemma increasing_take (tl : list Q) (ix : list nat) (n : nat) :
  increasing tl -> StronglySorted lt ix ->
  (forall i, In i ix -> (i < length tl)%nat) ->
  increasing (map (fun p => nth p tl 0) (firstn n ix)).
Proof.
  intros Htl Hs Hb i j Hij Hj.
  rewrite length_map, length_firstn in Hj.
  rewrite (@nth_map_in _ (fun p => nth p tl 0) (firstn n ix) i 0%nat)
    by (rewrite length_firstn; lia).
  rewrite (@nth_map_in _ (fun p => nth p tl 0) (firstn n ix) j 0%nat)
    by (rewrite length_firstn; lia).
  rewrite !nth_firstn.
  destruct (Nat.ltb_spec i n), (Nat.ltb_spec j n); try lia.
  apply Htl.
  - apply sorted_nth_lt; [assumption|lia|lia].
  - apply Hb, nth_In. lia.
Qed.

Section MorePhase.

Variable detrend : list Q -> list Q.
Variable fit_transform : ndarray -> exn + ndarray.

(** The peaks detected on a signal with a scale are increasing indices
    into the signal. *)
Lemma detected_peaks_sorted_bounded
      (x : ndarray) (N : nat) (p : list nat) (g g' : rng) :
  shape x = [N] -> length (flat x) = N -> (3 <= N)%nat ->
  length (detrend (flat x)) = length (flat x) ->
  ampd_peaks detrend x g = (inr p, g') ->
  StronglySorted lt p /\ forall i, In i p -> (i < N)%nat.
Proof.
  intros Hs Hl HN Hd Hrun. rewrite Hl in Hd.
  destruct (@ampd_peaks_eq detrend x N g (@squeeze_signal x N Hs HN) HN Hd)
    as (k & _ & _ & E).
  rewrite E in Hrun. injection Hrun as <- _.
  split; [apply sorted_filter_seq|]. intros i. apply peaks_of_bound.
Qed.

(** X11: once both detections have returned, the call returns exactly when
    every cropped peak index lies inside the time base; otherwise the
    indexing of the time base raises an [IndexError]. *)
Theorem relative_phase_time_base_bounds
        (a : ndarray) (b : option ndarray) (t : option (list Q))
        (a' b' : ndarray) (tl : list Q) (pa pb : list nat) (g g1 g2 : rng) :
  _validate_vectors fit_transform a b = inr (a', b') ->
  time_base t a' tl ->
  ampd_peaks detrend a' g = (inr pa, g1) ->
  ampd_peaks detrend b' g1 = (inr pb, g2) ->
  relative_phase detrend fit_transform a b t g =
  (if forallb (fun p => (p <? length tl)%nat)
              (firstn (crop_length pa pb) pa ++ firstn (crop_length pa pb) pb)
   then inr (map (fun p => nth p tl 0) (firstn (crop_length pa pb) pa),
             map (fun p => nth p tl 0) (firstn (crop_length pa pb) pb),
             phases pa pb (crop_length pa pb))
   else inl (IndexError "index out of bounds"),
   g2).
Proof.
  intros Hv Ht Ha Hb.
  rewrite (@relative_phase_after_detection detrend fit_transform
             a b t a' b' tl pa pb g g1 g2 Hv Ht Ha Hb).
  rewrite !take_forallb, forallb_app.
  destruct (forallb _ (firstn (crop_length pa pb) pa)); [|reflexivity].
  destruct (forallb _ (firstn (crop_length pa pb) pb)); reflexivity.
Qed.

Variables (a : ndarray) (b : option ndarray) (a' b' : ndarray) (N : nat).
Variable g : rng.

Hypothesis detrend_a : length (detrend (flat a')) = length (flat a').
Hypothesis detrend_b : length (detrend (flat b')) = length (flat b').
Hypothesis validated : _validate_vectors fit_transform a b = inr (a', b').

(** The facts shared by the results below. *)
Lemma relative_phase_valid_full (t : option (list Q)) :
  valid_signals a' b' t N ->
  exists (pa pb : list nat) (tl : list Q) (g1 g2 : rng),
    ampd_peaks detrend a' g = (inr pa, g1) /\
    ampd_peaks detrend b' g1 = (inr pb, g2) /\
    tl = match t with Some t' => t' | None => arange N end /\
    length tl = N /\
    StronglySorted lt pa /\ StronglySorted lt pb /\
    (forall i, In i pa -> (i < N)%nat) /\
    (forall i, In i pb -> (i < N)%nat) /\
    relative_phase detrend fit_transform a b t g =
    (inr (map (fun p => nth p tl 0) (firstn (crop_length pa pb) pa),
          map (fun p => nth p tl 0) (firstn (crop_length pa pb) pb),
          phases pa pb (crop_length pa pb)), g2).
Proof.
  intros Hvalid.
  destruct (@relative_phase_valid detrend fit_transform a b t a' b' N g
              detrend_a detrend_b validated Hvalid)
    as (pa & pb & tl & g1 & g2 & Ea & Eb & Htb & _ & Hrun).
  destruct Hvalid as (Hsa & Hsb & Hla & Hlb & HN & Ht).
  destruct (@detected_peaks_sorted_bounded a' N pa g g1 Hsa Hla HN
              detrend_a Ea) as [Hsa' Hba].
  destruct (@detected_peaks_sorted_bounded b' N pb g1 g2 Hsb Hlb HN
              detrend_b Eb) as [Hsb' Hbb].
  assert (Htl : tl = match t with Some t' => t' | None => arange N end).
  { unfold time_base in Htb. destruct t as [t'|]; [exact Htb|].
    destruct Htb as (n & Hn & ->). unfold shape_at in Hn. rewrite Hsa in Hn.
    cbn in Hn. now injection Hn as <-. }
  exists pa, pb, tl, g1, g2. repeat split; try assumption.
  rewrite Htl. destruct t as [t'|]; [now apply Ht|apply length_arange].
Qed.

(** X12: without a time base the cycle positions returned are the peak
    indices themselves. *)
Theorem relative_phase_default_time_base :
  valid_signals a' b' None N ->
  exists (pa pb : list nat) (g1 g2 : rng) (rel : list Q),
    ampd_peaks detrend a' g = (inr pa, g1) /\
    ampd_peaks detrend b' g1 = (inr pb, g2) /\
    relative_phase detrend fit_transform a b None g =
    (inr (map (fun p => inject_Z (Z.of_nat p)) (firstn (crop_length pa pb) pa),
          map (fun p => inject_Z (Z.of_nat p)) (firstn (crop_length pa pb) pb),
          rel), g2).
Proof.
  intros Hvalid.
  destruct (relative_phase_valid_full Hvalid)
    as (pa & pb & tl & g1 & g2 & Ea & Eb & -> & _ & _ & _ & Hba & Hbb & Hrun).
  exists pa, pb, g1, g2, (phases pa pb (crop_length pa pb)).
  split; [exact Ea|]. split; [exact Eb|]. rewrite Hrun.
  do 3 f_equal.
  - f_equal; apply map_ext_in; intros p Hp; apply nth_arange;
      apply in_firstn in Hp; auto.
Qed.

(** X13: the phases do not depend on the time base: they are computed from
    the peak indices, whatever the times given for the samples. *)
Theorem relative_phase_ignores_time_base (t t' : option (list Q)) :
  valid_signals a' b' t N -> valid_signals a' b' t' N ->
  exists (t_a t_b t_a' t_b' rel : list Q) (g2 : rng),
    relative_phase detrend fit_transform a b t g = (inr (t_a, t_b, rel), g2)
    /\
    relative_phase detrend fit_transform a b t' g
    = (inr (t_a', t_b', rel), g2).
Proof.
  intros Hvalid Hvalid'.
  destruct (relative_phase_valid_full Hvalid)
    as (pa & pb & tl & g1 & g2 & Ea & Eb & _ & _ & _ & _ & _ & _ & Hrun).
  destruct (relative_phase_valid_full Hvalid')
    as (pa' & pb' & tl' & g1' & g2' & Ea' & Eb' & _ & _ & _ & _ & _ & _
        & Hrun').
  rewrite Ea in Ea'. injection Ea' as <- <-.
  rewrite Eb in Eb'. injection Eb' as <- <-.
  do 5 eexists. exists g2. split; [exact Hrun|exact Hrun'].
Qed.


(** X15: when the time base increases with the sample index, and always when
    none is passed, the cycle times returned for each signal increase. *)
Theorem relative_phase_times_increase (t : option (list Q)) :
  valid_signals a' b' t N ->
  (forall t', t = Some t' -> increasing t') ->
  exists (t_a t_b rel : list Q) (g2 : rng),
    relative_phase detrend fit_transform a b t g = (inr (t_a, t_b, rel), g2)
    /\ increasing t_a /\ increasing t_b.
Proof.
  intros Hvalid Hinc.
  destruct (relative_phase_valid_full Hvalid)
    as (pa & pb & tl & g1 & g2 & _ & _ & Htl & Hlen & Hsa & Hsb & Hba & Hbb
        & Hrun).
  assert (Htinc : increasing tl).
  { rewrite Htl. destruct t as [t'|]; [now apply Hinc|apply increasing_arange]. }
  do 3 eexists. exists g2. split; [exact Hrun|].
  split; apply increasing_take; auto; intros i Hi; rewrite Hlen; auto.
Qed.

End MorePhase.

Section Projections.

Variable detrend : list Q -> list Q.
Variable fit_transform : ndarray -> exn + ndarray.

(** X16: two arrays that keep more than one axis are replaced by their
    squeezed projections: when these are one-dimensional, the call
    returns what it returns on the projections themselves. *)
Theorem relative_phase_of_projections
        (a b pa pb : ndarray) (t : option (list Q)) (g : rng) :
  (1 < ndim (squeeze a))%nat -> (1 < ndim (squeeze b))%nat ->
  _collapse fit_transform (squeeze a) = inr pa ->
  _collapse fit_transform (squeeze b) = inr pb ->
  (ndim pa <= 1)%nat -> (ndim pb <= 1)%nat ->
  relative_phase detrend fit_transform a (Some b) t g =
  relative_phase detrend fit_transform pa (Some pb) t g.
Proof.
  intros Ha Hb Ea Eb Hca Hcb.
  assert (Hred : forall x px,
             (1 < ndim (squeeze x))%nat ->
             _collapse fit_transform (squeeze x) = inr px ->
             (ndim px <= 1)%nat ->
             reduced fit_transform x = inr px /\
             reduced fit_transform px = inr px).
  { intros x px Hx Ex Hpx.
    assert (Hx' : reduced fit_transform x = inr px).
    { unfold reduced. apply Nat.ltb_lt in Hx. now rewrite Hx. }
    split; [exact Hx'|].
    pose proof (@reduced_squeezed fit_transform x px Hx') as Hs.
    unfold reduced. rewrite Hs.
    destruct (Nat.ltb_spec 1 (ndim px)); [lia|reflexivity]. }
  destruct (Hred a pa Ha Ea Hca) as [Ra Ra'].
  destruct (Hred b pb Hb Eb Hcb) as [Rb Rb'].
  assert (Hv : _validate_vectors fit_transform a (Some b) =
               _validate_vectors fit_transform pa (Some pb)).
  { rewrite !validate_vectors_two. now rewrite Ra, Rb, Ra', Rb'. }
  unfold relative_phase. now rewrite Hv.
Qed.

End Projections.

Lemma relative_phase_of_projections_witness :
  (1 < ndim (squeeze (column_stack sig_a sig_b)))%nat /\
  _collapse first_channel (squeeze (column_stack sig_a sig_b))
  = inr (vec sig_a) /\
  _collapse first_channel (squeeze (column_stack sig_b sig_a))
  = inr (vec sig_b) /\
  relative_phase lstsq_detrend first_channel
                 (column_stack sig_a sig_b)
                 (Some (column_stack sig_b sig_a)) None (lcg 12) =
  relative_phase lstsq_detrend first_channel
                 (vec sig_a) (Some (vec sig_b)) None (lcg 12).
Proof.
  assert (H : (1 < ndim (squeeze (column_stack sig_a sig_b)))%nat)
    by (cbn; lia).
  assert (H' : (1 < ndim (squeeze (column_stack sig_b sig_a)))%nat)
    by (cbn; lia).
  assert (Ea : _collapse first_channel (squeeze (column_stack sig_a sig_b))
               = inr (vec sig_a)) by reflexivity.
  assert (Eb : _collapse first_channel (squeeze (column_stack sig_b sig_a))
               = inr (vec sig_b)) by reflexivity.
  split; [exact H|]. split; [exact Ea|]. split; [exact Eb|].
  apply (@relative_phase_of_projections lstsq_detrend first_channel
           (column_stack sig_a sig_b) (column_stack sig_b sig_a)
           (vec sig_a) (vec sig_b) None (lcg 12) H H' Ea Eb); cbn; lia.
Defined.

Lemma sample_validated :
  _validate_vectors first_channel (vec sig_a) (Some (vec sig_b))
  = inr (vec sig_a, vec sig_b).
Proof. vm_compute; reflexivity. Qed.

Lemma relative_phase_time_base_bounds_witness :
  time_base (Some [0; 1; 2; 3; 4; 5; 6; 7]) (vec sig_a)
            [0; 1; 2; 3; 4; 5; 6; 7] /\
  fst (relative_phase lstsq_detrend first_channel
                      (vec sig_a) (Some (vec sig_b))
                      (Some [0; 1; 2; 3; 4; 5; 6; 7]) (lcg 12))
  = inl (IndexError "index out of bounds").
Proof.
  assert (H : time_base (Some [0; 1; 2; 3; 4; 5; 6; 7]) (vec sig_a)
                        [0; 1; 2; 3; 4; 5; 6; 7]) by reflexivity.
  split; [exact H|].
  rewrite (@relative_phase_time_base_bounds
             lstsq_detrend first_channel
             (vec sig_a) (Some (vec sig_b))
             (Some [0; 1; 2; 3; 4; 5; 6; 7]) (vec sig_a) (vec sig_b)
             [0; 1; 2; 3; 4; 5; 6; 7] [3; 7; 11]%nat [5; 9]%nat
             (lcg 12) (advance (lcg 12) 78)
             (advance (advance (lcg 12) 78) 78)
             sample_validated H sample_detection_a sample_detection_b).
  reflexivity.
Defined.

Lemma sample_detrend_a :
  length (lstsq_detrend (flat (vec sig_a))) = length (flat (vec sig_a)).
Proof. vm_compute; reflexivity. Qed.

Lemma sample_detrend_b :
  length (lstsq_detrend (flat (vec sig_b))) = length (flat (vec sig_b)).
Proof. vm_compute; reflexivity. Qed.

Lemma relative_phase_default_time_base_witness :
  valid_signals (vec sig_a) (vec sig_b) None 13 /\
  exists pa pb rel g2,
    relative_phase lstsq_detrend first_channel
                   (vec sig_a) (Some (vec sig_b)) None (lcg 12) =
    (inr (map (fun p => inject_Z (Z.of_nat p)) (firstn (crop_length pa pb) pa),
          map (fun p => inject_Z (Z.of_nat p)) (firstn (crop_length pa pb) pb),
          rel), g2).
Proof.
  split; [exact sample_signals_valid|].
  destruct (@relative_phase_default_time_base
              lstsq_detrend first_channel
              (vec sig_a) (Some (vec sig_b)) (vec sig_a) (vec sig_b) 13
              (lcg 12) sample_detrend_a sample_detrend_b sample_validated
              sample_signals_valid)
    as (pa & pb & g1 & g2 & rel & _ & _ & Hrun).
  exists pa, pb, rel, g2. exact Hrun.
Defined.

Lemma sample_signals_valid_with_times :
  valid_signals (vec sig_a) (vec sig_b)
                (Some sample_times) 13.
Proof.
  unfold valid_signals. repeat split; try reflexivity.
  - cbn. lia.
  - intros t' [= <-]. reflexivity.
Qed.

Lemma relative_phase_ignores_time_base_witness :
  valid_signals (vec sig_a) (vec sig_b)
                (Some sample_times) 13 /\
  exists t_a t_b t_a' t_b' rel g2,
    relative_phase lstsq_detrend first_channel
                   (vec sig_a) (Some (vec sig_b)) None (lcg 12)
    = (inr (t_a, t_b, rel), g2) /\
    relative_phase lstsq_detrend first_channel
                   (vec sig_a) (Some (vec sig_b))
                   (Some sample_times) (lcg 12)
    = (inr (t_a', t_b', rel), g2).
Proof.
  split; [exact sample_signals_valid_with_times|].
  exact (@relative_phase_ignores_time_base
           lstsq_detrend first_channel
           (vec sig_a) (Some (vec sig_b)) (vec sig_a) (vec sig_b) 13
           (lcg 12) sample_detrend_a sample_detrend_b sample_validated
           None (Some sample_times)
           sample_signals_valid sample_signals_valid_with_times).
Defined.


Lemma increasing_squares (n : nat) :
  increasing (map (fun x => x * x) (arange n)).
Proof.
  intros i j Hij Hj.
  rewrite length_map, length_arange in Hj.
  rewrite (@nth_map_in _ (fun x => x * x) (arange n) i 0)
    by (rewrite length_arange; lia).
  rewrite (@nth_map_in _ (fun x => x * x) (arange n) j 0)
    by (rewrite length_arange; lia).
  rewrite !nth_arange by lia.
  assert (Hi : 0 <= inject_Z (Z.of_nat i))
    by (change 0 with (inject_Z 0); rewrite <- Zle_Qle; lia).
  assert (Hlt : inject_Z (Z.of_nat i) < inject_Z (Z.of_nat j))
    by (rewrite <- Zlt_Qlt; lia).
  nra.
Qed.

Lemma sample_times_increasing :
  forall t', Some sample_times = Some t' -> increasing t'.
Proof.
  intros t' H. injection H as <-. apply increasing_squares.
Qed.

Lemma relative_phase_times_increase_witness :
  valid_signals (vec sig_a) (vec sig_b)
                (Some sample_times) 13 /\
  exists t_a t_b rel g2,
    relative_phase lstsq_detrend first_channel
                   (vec sig_a) (Some (vec sig_b))
                   (Some sample_times) (lcg 12)
    = (inr (t_a, t_b, rel), g2) /\
    increasing t_a /\ increasing t_b.
Proof.
  split; [exact sample_signals_valid_with_times|].
  exact (@relative_phase_times_increase
           lstsq_detrend first_channel
           (vec sig_a) (Some (vec sig_b)) (vec sig_a) (vec sig_b) 13
           (lcg 12) sample_detrend_a sample_detrend_b sample_validated
           (Some sample_times)
           sample_signals_valid_with_times sample_times_increasing).
Defined.
